(** * Flattening of wildlife prediction records: CSV sink and SQLite sink

    A shallow embedding of [src/json_to_csv.py] and [src/json_to_sqlite.py].
    Python values are kept as the JSON loader hands them over, exceptions
    are results of an error monad, the SQLite connection is an explicit
    state threaded through the inserts. *)

From Stdlib Require Import ZArith Lia Floats.SpecFloat Strings.Ascii Strings.String.
From stdpp Require Import base option list strings gmap.

Open Scope string_scope.
Open Scope list_scope.
Open Scope nat_scope.

(** ** Python values and exceptions *)

(** A binary64 number, by its IEEE 754 specification. *)
Definition float64 : Type := spec_float.

(** The scalars [json.load] produces: [null], booleans, integers of any
    size, doubles and strings (as UTF-8 text). *)
Inductive value : Type :=
  | VNone
  | VBool (b : bool)
  | VInt (z : Z)
  | VFloat (f : float64)
  | VStr (s : string).

Inductive exn : Type :=
  | TypeError
  | ValueError
  | OverflowError
  | IndexError
  | IntegrityError.

Inductive result (A : Type) : Type :=
  | Ok (a : A)
  | Raise (e : exn).
Arguments Ok {A} a.
Arguments Raise {A} e.

#[global] Instance result_ret : MRet result := @Ok.
#[global] Instance result_bind : MBind result := λ A B f m,
  match m with Ok a => f a | Raise e => Raise e end.

(** [l[i]]: an [IndexError] out of range. *)
Definition index {A} (l : list A) (i : nat) : result A :=
  match l !! i with Some x => Ok x | None => Raise IndexError end.

(** [l[i] if i < len(l) else d] *)
Definition index_or {A} (l : list A) (i : nat) (d : A) : result A :=
  if decide (i < length l) then index l i else Ok d.

(** [d.get(key, default)] on a key that is present with value [v]
    ([Some v]) or absent ([None]). *)
Definition get {A} (field : option A) (default : A) : A :=
  match field with Some v => v | None => default end.

(** ** [str.split] on a one-character separator *)

Fixpoint split (sep : ascii) (s : string) : list string :=
  match s with
  | EmptyString => [EmptyString]
  | String c s' =>
      if decide (c = sep) then EmptyString :: split sep s'
      else match split sep s' with
           | seg :: rest => String c seg :: rest
           | [] => [String c EmptyString]
           end
  end.

(** [sep.join(l)], used to state that [split] loses nothing. *)
Fixpoint join (sep : ascii) (l : list string) : string :=
  match l with
  | [] => EmptyString
  | [seg] => seg
  | seg :: rest => seg +:+ String sep (join sep rest)
  end.

Definition semicolon : ascii := ";"%char.

(** [enumerate(l)] *)
Fixpoint enumerate_from {A} (start : nat) (l : list A) : list (nat * A) :=
  match l with
  | [] => []
  | x :: l' => (start, x) :: enumerate_from (S start) l'
  end.

Definition enumerate {A} (l : list A) : list (nat * A) := enumerate_from 0 l.

(** A [for] loop whose body may raise: the results of the iterations in
    order, or the first exception. *)
Fixpoint for_each {A B} (body : A → result B) (l : list A) : result (list B) :=
  match l with
  | [] => Ok []
  | x :: l' => y ← body x; ys ← for_each body l'; Ok (y :: ys)
  end.

(** ** The input contract *)

(** A JSON object is read only through [.get] on fixed keys, so it is kept
    as a record of optional entries: [None] is an absent key. *)
Module Json.

Record Detection : Type := {
  category : option value;
  label : option value;
  conf : option value;
  bbox : option (list value)
}.

Record Classifications : Type := {
  classes : option (list string);
  scores : option (list value)
}.

Record Prediction : Type := {
  filepath : option value;
  country : option value;
  model_version : option value;
  prediction : option value;
  prediction_score : option value;
  prediction_source : option value;
  classifications : option Classifications;
  detections : option (list Detection)
}.

(** The literal [{}]. *)
Definition empty_detection : Detection :=
  {| category := None; label := None; conf := None; bbox := None |}.

Definition empty_classifications : Classifications :=
  {| classes := None; scores := None |}.

End Json.

(** ** Taxonomy parsers *)

Module Csv.

(** The dictionary [split_taxonomy] returns: eight named entries. *)
Record Taxonomy : Type := {
  class_uuid : string;
  kingdom : string;
  tax1 : string;
  tax2 : string;
  tax3 : string;
  tax4 : string;
  tax5 : string;
  common_name : string
}.

(** The list [parts] after [parts += [""] * (9 - len(parts))]. *)
Definition padded_parts (class_str : string) : list string :=
  let parts := split semicolon class_str in
  parts ++ replicate (9 - length parts) "".

Definition split_taxonomy (class_str : string) : result Taxonomy :=
  let parts := padded_parts class_str in
  p0 ← index parts 0;
  p1 ← index parts 1;
  p2 ← index parts 2;
  p3 ← index parts 3;
  p4 ← index parts 4;
  p5 ← index parts 5;
  p6 ← index parts 6;
  p7 ← index_or parts 7 "";
  Ok {| class_uuid := p0; kingdom := p1; tax1 := p2; tax2 := p3;
        tax3 := p4; tax4 := p5; tax5 := p6; common_name := p7 |}.

(** The values of the returned dictionary, in key order. *)
Definition fields (t : Taxonomy) : list string :=
  [class_uuid t; kingdom t; tax1 t; tax2 t; tax3 t; tax4 t; tax5 t;
   common_name t].

(** *** The rows handed to the three [DictWriter]s *)

Record SummaryRow : Type := {
  s_filepath : value;
  s_country : value;
  s_model_version : value;
  s_prediction : value;
  s_prediction_score : value;
  s_prediction_source : value;
  top_class : string;
  top_score : value;
  second_class : string;
  second_score : value;
  num_classes : nat;
  num_detections : nat;
  detection_label : value;
  detection_conf : value;
  s_bbox_x : value;
  s_bbox_y : value;
  s_bbox_w : value;
  s_bbox_h : value
}.

Record ClassRow : Type := {
  c_filepath : value;
  c_country : value;
  c_model_version : value;
  class_rank : nat;
  c_class_uuid : string;
  c_kingdom : string;
  c_tax1 : string;
  c_tax2 : string;
  c_tax3 : string;
  c_tax4 : string;
  c_tax5 : string;
  c_common_name : string;
  c_score : value
}.

Record DetectionRow : Type := {
  d_filepath : value;
  d_country : value;
  d_model_version : value;
  detection_index : nat;
  d_category : value;
  d_label : value;
  d_conf : value;
  d_bbox_x : value;
  d_bbox_y : value;
  d_bbox_w : value;
  d_bbox_h : value
}.

(** The default [""] of the [.get] calls. *)
Definition empty : value := VStr "".

(** The list [bbox] after [bbox += [""] * (4 - len(bbox))]. *)
Definition pad (bbox : list value) : list value :=
  bbox ++ replicate (4 - length bbox) empty.

(** [bbox = d.get("bbox", ["", "", "", ""]); bbox += [""] * (4 - len(bbox))].
    [+=] extends the list object in place: a list stored under the key
    "bbox" of [d] is changed inside [d] as well, the default list is a
    fresh one. Gives [d] as it is afterwards and the list [bbox] names. *)
Definition take_bbox (d : Json.Detection) : Json.Detection * list value :=
  match Json.bbox d with
  | Some b =>
      ({| Json.category := Json.category d; Json.label := Json.label d;
          Json.conf := Json.conf d; Json.bbox := Some (pad b) |}, pad b)
  | None => (d, pad [empty; empty; empty; empty])
  end.

(** One iteration of the loop over [classes]. *)
Definition class_row (filepath country model_version : value)
    (scores : list value) (ic : nat * string) : result ClassRow :=
  let '(i, cls) := ic in
  tax ← split_taxonomy cls;
  score ← index_or scores i empty;
  Ok {| c_filepath := filepath; c_country := country;
        c_model_version := model_version;
        class_rank := i + 1;
        c_class_uuid := class_uuid tax; c_kingdom := kingdom tax;
        c_tax1 := tax1 tax; c_tax2 := tax2 tax; c_tax3 := tax3 tax;
        c_tax4 := tax4 tax; c_tax5 := tax5 tax;
        c_common_name := common_name tax;
        c_score := score |}.

(** One iteration of the loop over [detections]. *)
Definition detection_row (filepath country model_version : value)
    (id : nat * Json.Detection) : result DetectionRow :=
  let '(i, d) := id in
  let bbox := snd (take_bbox d) in
  x ← index bbox 0;
  y ← index bbox 1;
  w ← index bbox 2;
  h ← index bbox 3;
  Ok {| d_filepath := filepath; d_country := country;
        d_model_version := model_version;
        detection_index := i + 1;
        d_category := get (Json.category d) empty;
        d_label := get (Json.label d) empty;
        d_conf := get (Json.conf d) empty;
        d_bbox_x := x; d_bbox_y := y; d_bbox_w := w; d_bbox_h := h |}.

(** The body of the loop over [predictions] in [main]: the row written
    to the summary file, then the rows written to the classifications
    file and to the detections file. *)
Definition flatten (pred : Json.Prediction)
    : result (SummaryRow * list ClassRow * list DetectionRow) :=
  let filepath := get (Json.filepath pred) empty in
  let country := get (Json.country pred) empty in
  let model_version := get (Json.model_version pred) empty in
  let prediction := get (Json.prediction pred) empty in
  let prediction_score := get (Json.prediction_score pred) empty in
  let prediction_source := get (Json.prediction_source pred) empty in
  let clas := get (Json.classifications pred) Json.empty_classifications in
  let classes := get (Json.classes clas) [] in
  let scores := get (Json.scores clas) [] in
  let num_classes := length classes `max` length scores in
  top_class ← index_or classes 0 "";
  top_score ← index_or scores 0 empty;
  second_class ← index_or classes 1 "";
  second_score ← index_or scores 1 empty;
  let detections := get (Json.detections pred) [] in
  let num_detections := length detections in
  det0 ← index_or detections 0 Json.empty_detection;
  let detection_label := get (Json.label det0) empty in
  let detection_conf := get (Json.conf det0) empty in
  let '(det0, bbox) := take_bbox det0 in
  (* [det0] is the object [detections[0]] itself when there is one *)
  let detections :=
    if decide (0 < num_detections) then <[0 := det0]> detections
    else detections in
  x ← index bbox 0;
  y ← index bbox 1;
  w ← index bbox 2;
  h ← index bbox 3;
  let summary :=
    {| s_filepath := filepath; s_country := country;
       s_model_version := model_version;
       s_prediction := prediction;
       s_prediction_score := prediction_score;
       s_prediction_source := prediction_source;
       top_class := top_class; top_score := top_score;
       second_class := second_class; second_score := second_score;
       num_classes := num_classes; num_detections := num_detections;
       detection_label := detection_label;
       detection_conf := detection_conf;
       s_bbox_x := x; s_bbox_y := y; s_bbox_w := w; s_bbox_h := h |} in
  class_rows ←
    for_each (class_row filepath country model_version scores)
             (enumerate classes);
  detection_rows ←
    for_each (detection_row filepath country model_version)
             (enumerate detections);
  Ok (summary, class_rows, detection_rows).

(** The three output files, as the rows written after the header. *)
Record Files : Type := {
  summary_csv : list SummaryRow;
  classifications_csv : list ClassRow;
  detections_csv : list DetectionRow
}.

Fixpoint write_all (predictions : list Json.Prediction) (out : Files)
    : result Files :=
  match predictions with
  | [] => Ok out
  | pred :: rest =>
      '(s, cs, ds) ← flatten pred;
      write_all rest
        {| summary_csv := summary_csv out ++ [s];
           classifications_csv := classifications_csv out ++ cs;
           detections_csv := detections_csv out ++ ds |}
  end.

(** [main], on the value [data.get("predictions", [])] reads. *)
Definition main (predictions : option (list Json.Prediction)) : result Files :=
  write_all (get predictions [])
    {| summary_csv := []; classifications_csv := []; detections_csv := [] |}.

End Csv.

Module Sqlite.

(** [tuple(parts[:7])] after [parts += [None] * (7 - len(parts))]. *)
Definition parse_tax_string (s : string) : list (option string) :=
  let parts := Some <$> split semicolon s in
  let parts := parts ++ replicate (7 - length parts) None in
  take 7 parts.

(** [a, b, c, d, e, f, g = t]: a [ValueError] unless [t] has seven
    entries. *)
Definition unpack7 {A} (t : list A) : result (A * A * A * A * A * A * A) :=
  match t with
  | [a; b; c; d; e; f; g] => Ok (a, b, c, d, e, f, g)
  | _ => Raise ValueError
  end.

(** [x, y, w, h = t] *)
Definition unpack4 {A} (t : list A) : result (A * A * A * A) :=
  match t with
  | [x; y; w; h] => Ok (x, y, w, h)
  | _ => Raise ValueError
  end.

(** *** The database *)

(** The engine is modelled by what [CREATE_TABLES_SQL] declares: the
    columns, the NOT NULL on [images.filepath], the AUTOINCREMENT key of
    [images] and the foreign keys of the child tables; and the driver by
    what [cur.execute] does with the parameters it is given. A row is the
    tuple of parameters of its [INSERT]: how the engine holds a value once
    stored is not looked at. Failures of the storage itself are outside
    the model. Of the columns, those the program writes are kept;
    [created_at] is filled in by the engine from the clock and is left
    out, and so are the row ids of the two child tables, which the program
    never reads. *)
Record ImageRow : Type := {
  filepath : value;
  country : value;
  prediction : value;
  prediction_score : value;
  prediction_source : value;
  model_version : value
}.

Record ClassificationRow : Type := {
  c_image_id : Z;
  class_uuid : option string;
  tax_class : option string;
  tax_order : option string;
  tax_family : option string;
  tax_genus : option string;
  tax_species : option string;
  common_name : option string;
  score : option float64;
  rank_integer : nat
}.

Record DetectionRow : Type := {
  d_image_id : Z;
  category : value;
  label : value;
  conf : value;
  bbox_x : value;
  bbox_y : value;
  bbox_w : value;
  bbox_h : value
}.

(** [images] maps the primary key [id] to the rest of the row;
    [images_seq] is the largest [id] ever handed out (AUTOINCREMENT);
    the child tables are kept in insertion order. *)
Record Db : Type := {
  images : gmap Z ImageRow;
  images_seq : Z;
  classifications : list ClassificationRow;
  detections : list DetectionRow
}.

(** Code running against the connection: the database is threaded
    through, and is left as it is at the point an exception is raised. *)
Definition Sql (A : Type) : Type := Db → result A * Db.

#[global] Instance sql_ret : MRet Sql := λ A a db, (Ok a, db).
#[global] Instance sql_bind : MBind Sql := λ A B f m db,
  match m db with
  | (Ok a, db') => f a db'
  | (Raise e, db') => (Raise e, db')
  end.

Definition lift {A} (r : result A) : Sql A := λ db, (r, db).

Fixpoint sql_for {A} (body : A → Sql ()) (l : list A) : Sql () :=
  match l with
  | [] => mret ()
  | x :: l' => body x;; sql_for body l'
  end.

(** What [cur.execute] does with a parameter before the statement runs:
    an integer has to fit 64 bits, signed. *)
Definition bind_param (v : value) : result value :=
  match v with
  | VInt z =>
      if decide (- 2 ^ 63 ≤ z < 2 ^ 63)%Z then Ok v else Raise OverflowError
  | _ => Ok v
  end.

(** The parameters the engine takes for NULL: [None], and a NaN. *)
Definition is_null (v : value) : bool :=
  match v with
  | VNone => true
  | VFloat S754_nan => true
  | _ => false
  end.

Definition max_rowid (m : gmap Z ImageRow) : Z :=
  foldr Z.max 0%Z (fst <$> map_to_list m).

Definition next_rowid (db : Db) : Z :=
  (1 + images_seq db `max` max_rowid (images db))%Z.

(** [INSERT INTO images (...) VALUES (?, ?, ?, ?, ?, ?)]; the result is
    the value of [cur.lastrowid] afterwards. The parameters are bound in
    order, then the statement runs; [filepath] is NOT NULL. *)
Definition insert_images (row : ImageRow) : Sql Z := λ db,
  match for_each bind_param
          [filepath row; country row; prediction row;
           prediction_score row; prediction_source row;
           model_version row] with
  | Raise e => (Raise e, db)
  | Ok _ =>
      if is_null (filepath row) then (Raise IntegrityError, db)
      else
        let id := next_rowid db in
        (Ok id,
         {| images := <[id := row]> (images db);
            images_seq := id;
            classifications := classifications db;
            detections := detections db |})
  end.

(** [INSERT INTO classifications (...) VALUES (?, ..., ?)]; [image_id]
    is a foreign key into [images], and foreign keys are enforced. Its
    parameters are an identifier the engine gave out, strings, a double
    and a position in a list, which the driver binds as they are. *)
Definition insert_classifications (row : ClassificationRow) : Sql () := λ db,
  match images db !! c_image_id row with
  | None => (Raise IntegrityError, db)
  | Some _ =>
      (Ok (),
       {| images := images db;
          images_seq := images_seq db;
          classifications := classifications db ++ [row];
          detections := detections db |})
  end.

(** [INSERT INTO detections (...) VALUES (?, ..., ?)] *)
Definition insert_detections (row : DetectionRow) : Sql () := λ db,
  match for_each bind_param
          [category row; label row; conf row;
           bbox_x row; bbox_y row; bbox_w row; bbox_h row] with
  | Raise e => (Raise e, db)
  | Ok _ =>
      match images db !! d_image_id row with
      | None => (Raise IntegrityError, db)
      | Some _ =>
          (Ok (),
           {| images := images db;
              images_seq := images_seq db;
              classifications := classifications db;
              detections := detections db ++ [row] |})
      end
  end.

(** *** [float] *)

(** [float(z)] on an integer: the nearest double, ties to even, and an
    [OverflowError] beyond the largest one. *)
Definition float_of_int (z : Z) : result float64 :=
  match binary_normalize 53 1024 z 0 false with
  | S754_infinity _ => Raise OverflowError
  | f => Ok f
  end.

(** *** Files and the connection *)

(** What [json.load] makes of a file: it raises, or gives a JSON object,
    of which only the entry "predictions" is read ([None] if absent). *)
Inductive content : Type :=
  | Invalid
  | Document (predictions : option (list Json.Prediction)).

(** The connection: the database as the statements run so far have left
    it, and as it was at the last commit, which is what is on disk. *)
Record Conn : Type := {
  working : Db;
  committed : Db
}.

(** How the process ends: [sys.exit], the end of [main], or an exception
    nothing catches. *)
Inductive outcome : Type :=
  | Exit (status : nat)
  | Finished (total : nat)
  | Uncaught (e : exn).

Section Flatten.

(** How [float] reads a string is the interpreter's business; it is
    taken as given, [None] standing for its [ValueError]. *)
Variable float_of_str : string → option float64.

Definition float (v : value) : result float64 :=
  match v with
  | VNone => Raise TypeError
  | VBool b => float_of_int (Z.b2z b)
  | VInt z => float_of_int z
  | VFloat f => Ok f
  | VStr s =>
      match float_of_str s with
      | Some f => Ok f
      | None => Raise ValueError
      end
  end.

(** The truth value of [class_str], a string or [None]. *)
Definition truthy (class_str : option string) : bool :=
  match class_str with
  | Some s => negb (String.eqb s "")
  | None => false
  end.

(** The parameters an iteration of the loop over [range(n)] computes
    for its [INSERT]. *)
Definition classification_params (image_id : Z) (classes : list string)
    (scores : list value) (i : nat) : result ClassificationRow :=
  class_str ← index_or (Some <$> classes) i None;
  score ← (if decide (i < length scores)
           then s ← index scores i; f ← float s; Ok (Some f)
           else Ok None);
  '(uuid, tax_class, tax_order, tax_family, tax_genus, tax_species,
    common_name) ←
    (if truthy class_str
     then unpack7 (parse_tax_string (default "" class_str))
     else Ok (None, None, None, None, None, None, None));
  Ok {| c_image_id := image_id; class_uuid := uuid;
        tax_class := tax_class; tax_order := tax_order;
        tax_family := tax_family; tax_genus := tax_genus;
        tax_species := tax_species; common_name := common_name;
        score := score; rank_integer := i |}.

(** One iteration of the loop over [range(n)]. *)
Definition classification (image_id : Z) (classes : list string)
    (scores : list value) (i : nat) : Sql () :=
  row ← lift (classification_params image_id classes scores i);
  insert_classifications row.

(** The parameters an iteration of the loop over [detections] computes
    for its [INSERT]. *)
Definition detection_params (image_id : Z) (d : Json.Detection)
    : result DetectionRow :=
  let category := get (Json.category d) VNone in
  let label := get (Json.label d) VNone in
  let conf := get (Json.conf d) VNone in
  let bbox := get (Json.bbox d) [VNone; VNone; VNone; VNone] in
  '(x, y, w, h) ← unpack4 (take 4 (bbox ++ replicate 4 VNone));
  Ok {| d_image_id := image_id; category := category; label := label;
        conf := conf; bbox_x := x; bbox_y := y; bbox_w := w;
        bbox_h := h |}.

(** One iteration of the loop over [detections]. *)
Definition detection (image_id : Z) (d : Json.Detection) : Sql () :=
  row ← lift (detection_params image_id d);
  insert_detections row.

(** The parameters of the [INSERT] into [images]. *)
Definition image_params (pred : Json.Prediction) : ImageRow :=
  let filepath := get (Json.filepath pred) VNone in
  let country := get (Json.country pred) VNone in
  let prediction := get (Json.prediction pred) VNone in
  let prediction_score := get (Json.prediction_score pred) VNone in
  let prediction_source := get (Json.prediction_source pred) VNone in
  let model_version := get (Json.model_version pred) VNone in
  {| filepath := filepath; country := country;
     prediction := prediction; prediction_score := prediction_score;
     prediction_source := prediction_source;
     model_version := model_version |}.

Definition insert_image_and_relations (pred : Json.Prediction) : Sql Z :=
  image_id ← insert_images (image_params pred);
  let clas := get (Json.classifications pred) Json.empty_classifications in
  let classes := get (Json.classes clas) [] in
  let scores := get (Json.scores clas) [] in
  let n := length classes `max` length scores in
  sql_for (classification image_id classes scores) (seq 0 n);;
  let detections := get (Json.detections pred) [] in
  sql_for (detection image_id) detections;;
  mret image_id.

(** The loop of [process_file]; [inserted] counts the predictions
    stored so far. *)
Fixpoint insert_all (preds : list Json.Prediction) (inserted : nat) : Sql nat :=
  match preds with
  | [] => mret inserted
  | p :: rest =>
      insert_image_and_relations p;; insert_all rest (inserted + 1)
  end.

(** [process_file], on what the file at [path] holds: [json.load] raises
    a [JSONDecodeError], which is a [ValueError], on invalid JSON, and
    [conn.commit()] is reached only when no statement raised. *)
Definition process_file (conn : Conn) (data : content) : result nat * Conn :=
  match data with
  | Invalid => (Raise ValueError, conn)
  | Document predictions =>
      let preds := get predictions [] in
      match insert_all preds 0 (working conn) with
      | (Ok inserted, db) =>
          (Ok inserted, {| working := db; committed := db |})
      | (Raise e, db) =>
          (Raise e, {| working := db; committed := committed conn |})
      end
  end.

(** The loop of [main] over the paths; [None] is a path at which
    [os.path.isfile] finds no file. *)
Fixpoint process_files (conn : Conn) (files : list (option content))
    (total : nat) : result nat * Conn :=
  match files with
  | [] => (Ok total, conn)
  | None :: rest => process_files conn rest total
  | Some data :: rest =>
      match process_file conn data with
      | (Ok n, conn') => process_files conn' rest (total + n)
      | (Raise e, conn') => (Raise e, conn')
      end
  end.

(** [main], on the paths of the command line and on what the database
    file holds: how the process ends and what the file holds then. *)
Definition main (files : list (option content)) (disk : Db) : outcome * Db :=
  if decide (length files < 1) then (Exit 1, disk)
  else
    match process_files {| working := disk; committed := disk |} files 0 with
    | (Ok total, conn) => (Finished total, committed conn)
    | (Raise e, conn) => (Uncaught e, committed conn)
    end.

End Flatten.

End Sqlite.

(** ** The mosaic page of [make_mosaic.py] *)

Module Mosaic.

(** [preferred and preferred in reader_fieldnames], then the first field
    name, then [None]. *)
Definition detect_column (reader_fieldnames : list string)
    (preferred : string) : option string :=
  if decide (preferred ≠ "" ∧ preferred ∈ reader_fieldnames)
  then Some preferred
  else head reader_fieldnames.

(** [s.replace(c, new)] for a one-character [c]. *)
Fixpoint replace (c : ascii) (new : string) (s : string) : string :=
  match s with
  | EmptyString => EmptyString
  | String a s' =>
      if decide (a = c) then new +:+ replace c new s'
      else String a (replace c new s')
  end.

(** The double quote, as a character and as a string. *)
Definition dquote : ascii := "034"%char.
Definition dq : string := String dquote EmptyString.

(** [html.escape(s, quote)] *)
Definition escape (s : string) (quote : bool) : string :=
  let s := replace "&"%char "&amp;" s in
  let s := replace "<"%char "&lt;" s in
  let s := replace ">"%char "&gt;" s in
  if quote
  then replace "'"%char "&#x27;" (replace dquote "&quot;" s)
  else s.

Section Cards.

(** [Path(path).name] is the business of [pathlib]; it is taken as
    given. *)
Variable name : string → string.

(** The line [<img src="..." loading="lazy" alt="...">] of a card. *)
Definition img_line (esc_path caption : string) : string :=
  "  <img src=" +:+ dq +:+ esc_path +:+ dq +:+ " loading=" +:+ dq +:+ "lazy"
  +:+ dq +:+ " alt=" +:+ dq +:+ caption +:+ dq +:+ ">".

(** The line [<div class="caption">...</div>] of a card. *)
Definition caption_line (caption : string) : string :=
  "  <div class=" +:+ dq +:+ "caption" +:+ dq +:+ ">" +:+ caption +:+ "</div>".

(** The lines one pass of the loop over [rows] appends to [out]. *)
Definition card (lightbox : bool) (path : string) : list string :=
  let esc_path := escape path true in
  let caption := escape (name path) true in
  if lightbox then
    [ "<a class=" +:+ dq +:+ "card" +:+ dq +:+ " href=" +:+ dq +:+ esc_path
      +:+ dq +:+ " data-lightbox data-caption=" +:+ dq +:+ caption +:+ dq
      +:+ ">";
      img_line esc_path caption;
      caption_line caption;
      "</a>" ]
  else
    [ "<div class=" +:+ dq +:+ "card" +:+ dq +:+ ">";
      img_line esc_path caption;
      caption_line caption;
      "</div>" ].

(** [out] after the loop, between the head and the foot of the page. *)
Definition cards (lightbox : bool) (rows : list string) : list string :=
  rows ≫= card lightbox.

End Cards.

End Mosaic.

(** ** Vocabulary of the statements *)

(** The segments of a taxonomy string. *)
Definition segments (s : string) : list string := split semicolon s.

(** The first [n] entries of [l], with [pad] standing in for the entries
    [l] does not have: always [n] entries. *)
Definition fit {A} (n : nat) (pad : A) (l : list A) : list A :=
  take n (l ++ replicate (n - length l) pad).

(** A parse into nine fields: segment [i] in field [i] for the first nine
    segments, [pad] in the fields past the last segment. *)
Definition nine_fields {A} (of_segment : string → A) (pad : A)
    (fields : list A) (s : string) : Prop :=
  fields = fit 9 pad (of_segment <$> segments s).

(** The bbox columns of a detection row, in either sink. *)
Definition csv_bbox (r : Csv.DetectionRow) : list value :=
  [Csv.d_bbox_x r; Csv.d_bbox_y r; Csv.d_bbox_w r; Csv.d_bbox_h r].

Definition sqlite_bbox (r : Sqlite.DetectionRow) : list value :=
  [Sqlite.bbox_x r; Sqlite.bbox_y r; Sqlite.bbox_w r; Sqlite.bbox_h r].

(** The taxonomy columns of a classification row of the SQLite sink. *)
Definition sqlite_fields (r : Sqlite.ClassificationRow) : list (option string) :=
  [Sqlite.class_uuid r; Sqlite.tax_class r; Sqlite.tax_order r;
   Sqlite.tax_family r; Sqlite.tax_genus r; Sqlite.tax_species r;
   Sqlite.common_name r].

(** The row an iteration of the CSV loop over [classes] writes, in closed
    form. *)
Definition csv_class_row_of (filepath country model_version : value)
    (scores : list value) (ic : nat * string) : Csv.ClassRow :=
  let segs := segments ic.2 in
  {| Csv.c_filepath := filepath; Csv.c_country := country;
     Csv.c_model_version := model_version;
     Csv.class_rank := ic.1 + 1;
     Csv.c_class_uuid := default "" (segs !! 0);
     Csv.c_kingdom := default "" (segs !! 1);
     Csv.c_tax1 := default "" (segs !! 2);
     Csv.c_tax2 := default "" (segs !! 3);
     Csv.c_tax3 := default "" (segs !! 4);
     Csv.c_tax4 := default "" (segs !! 5);
     Csv.c_tax5 := default "" (segs !! 6);
     Csv.c_common_name := default "" (segs !! 7);
     Csv.c_score := default Csv.empty (scores !! ic.1) |}.

(** The row an iteration of the CSV loop over [detections] writes, in
    closed form. *)
Definition csv_detection_row_of (filepath country model_version : value)
    (id : nat * Json.Detection) : Csv.DetectionRow :=
  let bbox := get (Json.bbox id.2) [] in
  {| Csv.d_filepath := filepath; Csv.d_country := country;
     Csv.d_model_version := model_version;
     Csv.detection_index := id.1 + 1;
     Csv.d_category := get (Json.category id.2) Csv.empty;
     Csv.d_label := get (Json.label id.2) Csv.empty;
     Csv.d_conf := get (Json.conf id.2) Csv.empty;
     Csv.d_bbox_x := default Csv.empty (bbox !! 0);
     Csv.d_bbox_y := default Csv.empty (bbox !! 1);
     Csv.d_bbox_w := default Csv.empty (bbox !! 2);
     Csv.d_bbox_h := default Csv.empty (bbox !! 3) |}.

(** The lists a prediction carries, with the defaults of the [.get]
    calls. *)
Definition classes_of (pred : Json.Prediction) : list string :=
  get (Json.classes
         (get (Json.classifications pred) Json.empty_classifications)) [].

Definition scores_of (pred : Json.Prediction) : list value :=
  get (Json.scores
         (get (Json.classifications pred) Json.empty_classifications)) [].

Definition detections_of (pred : Json.Prediction) : list Json.Detection :=
  get (Json.detections pred) [].

(** The summary row, in closed form. *)
Definition csv_summary_of (pred : Json.Prediction) : Csv.SummaryRow :=
  let det0 := default Json.empty_detection (detections_of pred !! 0) in
  let bbox := get (Json.bbox det0) [] in
  {| Csv.s_filepath := get (Json.filepath pred) Csv.empty;
     Csv.s_country := get (Json.country pred) Csv.empty;
     Csv.s_model_version := get (Json.model_version pred) Csv.empty;
     Csv.s_prediction := get (Json.prediction pred) Csv.empty;
     Csv.s_prediction_score := get (Json.prediction_score pred) Csv.empty;
     Csv.s_prediction_source := get (Json.prediction_source pred) Csv.empty;
     Csv.top_class := default "" (classes_of pred !! 0);
     Csv.top_score := default Csv.empty (scores_of pred !! 0);
     Csv.second_class := default "" (classes_of pred !! 1);
     Csv.second_score := default Csv.empty (scores_of pred !! 1);
     Csv.num_classes := length (classes_of pred) `max` length (scores_of pred);
     Csv.num_detections := length (detections_of pred);
     Csv.detection_label := get (Json.label det0) Csv.empty;
     Csv.detection_conf := get (Json.conf det0) Csv.empty;
     Csv.s_bbox_x := default Csv.empty (bbox !! 0);
     Csv.s_bbox_y := default Csv.empty (bbox !! 1);
     Csv.s_bbox_w := default Csv.empty (bbox !! 2);
     Csv.s_bbox_h := default Csv.empty (bbox !! 3) |}.

(** A loop that stops at the first exception: the results of the
    iterations before it, and the exception if there is one. *)
Fixpoint run_prefix {A B} (body : A → result B) (l : list A)
    : list B * option exn :=
  match l with
  | [] => ([], None)
  | x :: l' =>
      match body x with
      | Ok y => let '(ys, e) := run_prefix body l' in (y :: ys, e)
      | Raise e => ([], Some e)
      end
  end.

(** The database with rows appended to the two child tables. *)
Definition add_rows (db : Sqlite.Db) (cs : list Sqlite.ClassificationRow)
    (ds : list Sqlite.DetectionRow) : Sqlite.Db :=
  {| Sqlite.images := Sqlite.images db;
     Sqlite.images_seq := Sqlite.images_seq db;
     Sqlite.classifications := Sqlite.classifications db ++ cs;
     Sqlite.detections := Sqlite.detections db ++ ds |}.

(** The database with a row added to [images] under the key [id]. *)
Definition with_image (db : Sqlite.Db) (id : Z) (row : Sqlite.ImageRow)
    : Sqlite.Db :=
  {| Sqlite.images := <[id := row]> (Sqlite.images db);
     Sqlite.images_seq := id;
     Sqlite.classifications := Sqlite.classifications db;
     Sqlite.detections := Sqlite.detections db |}.

(** The driver binds the six parameters of the [INSERT] into [images]. *)
Definition image_binds (row : Sqlite.ImageRow) : result (list value) :=
  for_each Sqlite.bind_param
    [Sqlite.filepath row; Sqlite.country row; Sqlite.prediction row;
     Sqlite.prediction_score row; Sqlite.prediction_source row;
     Sqlite.model_version row].

(** The driver binds the parameters of an [INSERT] into [detections]. *)
Definition detection_binds (row : Sqlite.DetectionRow) : result (list value) :=
  for_each Sqlite.bind_param
    [Sqlite.category row; Sqlite.label row; Sqlite.conf row;
     Sqlite.bbox_x row; Sqlite.bbox_y row; Sqlite.bbox_w row;
     Sqlite.bbox_h row].

(** The parameters of a detection [INSERT], once the driver has bound
    them. *)
Definition detection_checked (image_id : Z) (d : Json.Detection)
    : result Sqlite.DetectionRow :=
  row ← Sqlite.detection_params image_id d;
  detection_binds row;;
  Ok row.

(** The parameters of a detection [INSERT], in closed form. *)
Definition sqlite_detection_row_of (image_id : Z) (d : Json.Detection)
    : Sqlite.DetectionRow :=
  let bbox := get (Json.bbox d) [] in
  {| Sqlite.d_image_id := image_id;
     Sqlite.category := get (Json.category d) VNone;
     Sqlite.label := get (Json.label d) VNone;
     Sqlite.conf := get (Json.conf d) VNone;
     Sqlite.bbox_x := default VNone (bbox !! 0);
     Sqlite.bbox_y := default VNone (bbox !! 1);
     Sqlite.bbox_w := default VNone (bbox !! 2);
     Sqlite.bbox_h := default VNone (bbox !! 3) |}.

(** The segments the SQLite sink reads off the class at a position: none
    when there is no class there, or an empty one. *)
Definition relational_segments (class_str : option string) : list string :=
  match class_str with
  | Some s => if Sqlite.truthy (Some s) then segments s else []
  | None => []
  end.

(** The score the SQLite sink computes at a position. *)
Definition relational_score (float_of_str : string → option float64)
    (scores : list value) (i : nat) : result (option float64) :=
  match scores !! i with
  | Some v => f ← Sqlite.float float_of_str v; Ok (Some f)
  | None => Ok None
  end.

(** The parameters of a classification [INSERT], in closed form, given
    the score. *)
Definition sqlite_class_row_of (image_id : Z) (class_str : option string)
    (score : option float64) (i : nat) : Sqlite.ClassificationRow :=
  let segs := relational_segments class_str in
  {| Sqlite.c_image_id := image_id;
     Sqlite.class_uuid := segs !! 0;
     Sqlite.tax_class := segs !! 1;
     Sqlite.tax_order := segs !! 2;
     Sqlite.tax_family := segs !! 3;
     Sqlite.tax_genus := segs !! 4;
     Sqlite.tax_species := segs !! 5;
     Sqlite.common_name := segs !! 6;
     Sqlite.score := score;
     Sqlite.rank_integer := i |}.

(** The taxonomy columns of a classification row of the CSV sink. *)
Definition csv_fields (c : Csv.ClassRow) : list string :=
  [Csv.c_class_uuid c; Csv.c_kingdom c; Csv.c_tax1 c; Csv.c_tax2 c;
   Csv.c_tax3 c; Csv.c_tax4 c; Csv.c_tax5 c; Csv.c_common_name c].

(** Equal up to the representation of a missing value: [""] in the CSV
    sink, [None] in the SQLite sink. *)
Definition text_agree (c : string) (r : option string) : Prop :=
  r = Some c ∨ (c = "" ∧ r = None).

Definition value_agree (c r : value) : Prop :=
  c = r ∨ (c = VStr "" ∧ r = VNone).

(** The score column of the SQLite sink, as a Python value. *)
Definition stored_score (r : Sqlite.ClassificationRow) : value :=
  from_option VFloat VNone (Sqlite.score r).

(** The same classification row in both sinks: rank, taxonomy fields and
    score. *)
Definition class_rows_agree (c : Csv.ClassRow) (r : Sqlite.ClassificationRow)
    : Prop :=
  Csv.class_rank c = Sqlite.rank_integer r ∧
  Forall2 text_agree (csv_fields c) (sqlite_fields r) ∧
  value_agree (Csv.c_score c) (stored_score r).

(** The same detection row in both sinks. *)
Definition detection_rows_agree (d : Csv.DetectionRow) (r : Sqlite.DetectionRow)
    : Prop :=
  value_agree (Csv.d_category d) (Sqlite.category r) ∧
  value_agree (Csv.d_label d) (Sqlite.label r) ∧
  value_agree (Csv.d_conf d) (Sqlite.conf r) ∧
  Forall2 value_agree (csv_bbox d) (sqlite_bbox r).

(** The score of the SQLite sink is [float] of the score of the CSV sink,
    and [None] where the CSV sink has [""] for a missing score. *)
Definition score_converted (float_of_str : string → option float64)
    (c : value) (r : option float64) : Prop :=
  match r with
  | Some f => Sqlite.float float_of_str c = Ok f
  | None => c = VStr ""
  end.

(** The classification rows of the two sinks agree position by position:
    the seven fields of the SQLite row are the first seven of the CSV row,
    and its score is the converted one. *)
Definition class_rows_agree_by_position
    (float_of_str : string → option float64)
    (c : Csv.ClassRow) (r : Sqlite.ClassificationRow) : Prop :=
  Forall2 text_agree (take 7 (csv_fields c)) (sqlite_fields r) ∧
  score_converted float_of_str (Csv.c_score c) (Sqlite.score r).

(** Every child row points at a row of [images]. *)
Definition referential_integrity (db : Sqlite.Db) : Prop :=
  Forall (λ c, is_Some (Sqlite.images db !! Sqlite.c_image_id c))
         (Sqlite.classifications db) ∧
  Forall (λ d, is_Some (Sqlite.images db !! Sqlite.d_image_id d))
         (Sqlite.detections db).

(** *** Sample inputs *)

(** The doubles 0.5 and 0.25. *)
Definition half : float64 := S754_finite false 4503599627370496 (-53).
Definition quarter : float64 := S754_finite false 4503599627370496 (-54).

(** A reading of strings by [float] that accepts none. The sample
    predictions hold no string among their scores, so the reading taken
    plays no part in their runs. *)
Definition no_float_of_str : string → option float64 := λ _, None.

Definition empty_db : Sqlite.Db :=
  {| Sqlite.images := ∅; Sqlite.images_seq := 0;
     Sqlite.classifications := []; Sqlite.detections := [] |}.

Definition sample_detection : Json.Detection :=
  {| Json.category := Some (VStr "1"); Json.label := Some (VStr "animal");
     Json.conf := Some (VFloat half);
     Json.bbox := Some [VFloat half; VFloat quarter] |}.

Definition sample_prediction (filepath : option value)
    (classes : list string) (scores : list value)
    (detections : list Json.Detection) : Json.Prediction :=
  {| Json.filepath := filepath; Json.country := Some (VStr "GT");
     Json.model_version := None; Json.prediction := None;
     Json.prediction_score := Some (VFloat half);
     Json.prediction_source := None;
     Json.classifications :=
       Some {| Json.classes := Some classes; Json.scores := Some scores |};
     Json.detections := Some detections |}.

(** [{"filepath": "a.jpg", ..., "classifications": {"classes": [],
    "scores": [0.5, 0.25]}, "detections": []}] *)
Definition scores_only : Json.Prediction :=
  sample_prediction (Some (VStr "a.jpg")) [] [VFloat half; VFloat quarter] [].

(** One class of eight segments with its score, and one detection. *)
Definition one_class : Json.Prediction :=
  sample_prediction (Some (VStr "a.jpg")) ["A;B;C;D;E;F;G;H"] [VFloat half]
    [sample_detection].

(** The score is the integer [1]. *)
Definition int_score : Json.Prediction :=
  sample_prediction (Some (VStr "a.jpg")) ["A"] [VInt 1] [].

(** The score is [null]. *)
Definition null_score : Json.Prediction :=
  sample_prediction (Some (VStr "a.jpg")) ["A"] [VNone] [].

(** No "filepath" key. *)
Definition no_filepath : Json.Prediction :=
  sample_prediction None ["A;B;C;D;E;F;G;H"] [VFloat half] [sample_detection].

(** No "filepath" key, and [2 ** 63] for "country". *)
Definition no_filepath_big_country : Json.Prediction :=
  {| Json.filepath := None; Json.country := Some (VInt (2 ^ 63));
     Json.model_version := None; Json.prediction := None;
     Json.prediction_score := None; Json.prediction_source := None;
     Json.classifications := None; Json.detections := None |}.

(** *** Further vocabulary *)

(** The rows the CSV sink writes for one prediction, in closed form. *)
Definition csv_class_rows_of (pred : Json.Prediction) : list Csv.ClassRow :=
  csv_class_row_of (get (Json.filepath pred) Csv.empty)
    (get (Json.country pred) Csv.empty)
    (get (Json.model_version pred) Csv.empty)
    (scores_of pred) <$> enumerate (classes_of pred).

Definition csv_detection_rows_of (pred : Json.Prediction)
    : list Csv.DetectionRow :=
  csv_detection_row_of (get (Json.filepath pred) Csv.empty)
    (get (Json.country pred) Csv.empty)
    (get (Json.model_version pred) Csv.empty)
    <$> enumerate (detections_of pred).

(** The characters of a string. *)
Fixpoint chars (s : string) : list ascii :=
  match s with
  | EmptyString => []
  | String c s' => c :: chars s'
  end.

(** What [insert_image_and_relations] needs of a prediction to return:
    a "filepath" that the engine does not take for NULL, image fields that
    the driver can bind, scores that [float] accepts, and detections whose
    fields the driver can bind. *)
Definition storable (float_of_str : string → option float64)
    (pred : Json.Prediction) : Prop :=
  Sqlite.is_null (Sqlite.filepath (Sqlite.image_params pred)) = false ∧
  (∃ vs, image_binds (Sqlite.image_params pred) = Ok vs) ∧
  Forall (λ v, ∃ f, Sqlite.float float_of_str v = Ok f) (scores_of pred) ∧
  Forall (λ d, ∀ image_id,
            ∃ vs, detection_binds (sqlite_detection_row_of image_id d) = Ok vs)
         (detections_of pred).

(** What [main] needs of a path to get past it: no file there, or a
    document all of whose predictions meet [storable]. *)
Definition loadable (float_of_str : string → option float64)
    (file : option Sqlite.content) : Prop :=
  match file with
  | None => True
  | Some Sqlite.Invalid => False
  | Some (Sqlite.Document predictions) =>
      Forall (storable float_of_str) (get predictions [])
  end.

(** The number of predictions behind a path. *)
Definition predictions_in (file : option Sqlite.content) : nat :=
  match file with
  | Some (Sqlite.Document predictions) => length (get predictions [])
  | _ => 0
  end.

(** A connection with nothing pending. *)
Definition fresh_conn (disk : Sqlite.Db) : Sqlite.Conn :=
  {| Sqlite.working := disk; Sqlite.committed := disk |}.

(** How often a character occurs in a string. *)
Definition occurrences (c : ascii) (s : string) : nat :=
  length (filter (λ a, a = c) (chars s)).

(** The characters that open or close a tag or an attribute value. *)
Definition markup (c : ascii) : Prop :=
  c = "<"%char ∨ c = ">"%char ∨ c = Mosaic.dquote ∨ c = "'"%char.

(** ** Facts on [split] *)

Lemma split_length_pos sep s : 0 < length (split sep s).
Proof.
  induction s as [|c s IH]; simpl; [lia|].
  case_decide; simpl; [lia|].
  destruct (split sep s); simpl; lia.
Qed.

Lemma join_split sep s : join sep (split sep s) = s.
Proof.
  induction s as [|c s IH]; simpl; [done|].
  case_decide as Hc.
  - subst c. pose proof (split_length_pos sep s) as Hpos.
    destruct (split sep s) as [|seg rest] eqn:E; simpl in *; [lia|].
    by rewrite IH.
  - pose proof (split_length_pos sep s) as Hpos.
    destruct (split sep s) as [|seg rest] eqn:E; simpl in *; [lia|].
    destruct rest; simpl in *; by rewrite <- IH.
Qed.

(** ** Facts on lists, indexing and loops *)

Lemma fit_length {A} (n : nat) (pad : A) (l : list A) : length (fit n pad l) = n.
Proof.
  unfold fit. rewrite length_take, length_app, length_replicate. lia.
Qed.

Lemma fit_short {A} (n : nat) (pad : A) (l : list A) :
  length l ≤ n → fit n pad l = l ++ replicate (n - length l) pad.
Proof.
  intros Hl. unfold fit. apply take_ge.
  rewrite length_app, length_replicate. lia.
Qed.

Lemma fit_long {A} (n : nat) (pad : A) (l : list A) : n ≤ length l → fit n pad l = take n l.
Proof.
  intros Hl. unfold fit.
  replace (n - length l) with 0 by lia. simpl. by rewrite app_nil_r.
Qed.

(** Reading a list that was padded up to [n] entries, below [n]. *)
Lemma lookup_padded {A} (n : nat) (pad : A) (l : list A) (i : nat) :
  i < n →
  (l ++ replicate (n - length l) pad) !! i = Some (default pad (l !! i)).
Proof.
  intros Hi. destruct (decide (i < length l)) as [Hl|Hl].
  - rewrite lookup_app_l by done.
    destruct (lookup_lt_is_Some_2 l i Hl) as [x Hx]. by rewrite Hx.
  - rewrite lookup_app_r by lia.
    rewrite (lookup_ge_None_2 l i) by lia. simpl.
    apply lookup_replicate_2. lia.
Qed.

Lemma fit_lookup {A} (n : nat) (pad : A) (l : list A) (i : nat) :
  i < n → fit n pad l !! i = Some (default pad (l !! i)).
Proof.
  intros Hi. unfold fit. rewrite lookup_take_lt by done.
  by apply lookup_padded.
Qed.

Lemma index_lookup {A} (l : list A) (i : nat) (x : A) : l !! i = Some x → index l i = Ok x.
Proof. intros H. unfold index. by rewrite H. Qed.

Lemma index_or_lookup {A} (l : list A) (i : nat) (d : A) :
  index_or l i d = Ok (default d (l !! i)).
Proof.
  unfold index_or, index. case_decide as Hi.
  - destruct (lookup_lt_is_Some_2 l i Hi) as [x Hx]. by rewrite Hx.
  - by rewrite (lookup_ge_None_2 l i) by lia.
Qed.

Lemma for_each_Forall2 {A B} (body : A → result B) l ys :
  for_each body l = Ok ys ↔ Forall2 (λ x y, body x = Ok y) l ys.
Proof.
  revert ys. induction l as [|x l IH]; intros ys; simpl.
  - split.
    + intros [= <-]. constructor.
    + intros H. by inversion H.
  - split.
    + destruct (body x) as [y|e] eqn:Hy; simpl; [|done].
      destruct (for_each body l) as [ys'|e] eqn:Hys; simpl; [|done].
      intros [= <-]. constructor; [done|]. by apply IH.
    + intros H. inversion H as [|? y ? ys' Hy Hys]; subst.
      rewrite Hy. simpl. apply IH in Hys. rewrite Hys. done.
Qed.

Lemma for_each_total {A B} (body : A → result B) (f : A → B) l :
  (∀ x, body x = Ok (f x)) → for_each body l = Ok (f <$> l).
Proof.
  intros Hbody. induction l as [|x l IH]; simpl; [done|].
  by rewrite Hbody, IH.
Qed.

Lemma enumerate_from_length {A} (start : nat) (l : list A) :
  length (enumerate_from start l) = length l.
Proof. revert start. induction l; intros; simpl; auto. Qed.

Lemma enumerate_from_lookup {A} (start : nat) (l : list A) (i : nat) :
  enumerate_from start l !! i = (λ x, (start + i, x)) <$> l !! i.
Proof.
  revert start i. induction l as [|x l IH]; intros start [|i]; simpl; try done.
  - by rewrite Nat.add_0_r.
  - rewrite IH. by replace (S start + i) with (start + S i) by lia.
Qed.

(** ** The taxonomy parsers *)

Lemma padded_parts_lookup (s : string) (i : nat) :
  i < 9 → Csv.padded_parts s !! i = Some (default "" (segments s !! i)).
Proof.
  intros Hi. unfold Csv.padded_parts. by apply lookup_padded.
Qed.

Lemma padded_parts_index (s : string) (i : nat) :
  i < 9 → index (Csv.padded_parts s) i = Ok (default "" (segments s !! i)).
Proof. intros Hi. by apply index_lookup, padded_parts_lookup. Qed.

(** What [split_taxonomy] returns, entry by entry. *)
Lemma split_taxonomy_eq s :
  Csv.split_taxonomy s =
  Ok {| Csv.class_uuid := default "" (segments s !! 0);
        Csv.kingdom := default "" (segments s !! 1);
        Csv.tax1 := default "" (segments s !! 2);
        Csv.tax2 := default "" (segments s !! 3);
        Csv.tax3 := default "" (segments s !! 4);
        Csv.tax4 := default "" (segments s !! 5);
        Csv.tax5 := default "" (segments s !! 6);
        Csv.common_name := default "" (segments s !! 7) |}.
Proof.
  unfold Csv.split_taxonomy.
  rewrite !padded_parts_index by lia.
  rewrite index_or_lookup, padded_parts_lookup by lia. reflexivity.
Qed.

Lemma parse_tax_string_fit s :
  Sqlite.parse_tax_string s = fit 7 None (Some <$> segments s).
Proof. reflexivity. Qed.

Lemma parse_tax_string_lookup (s : string) (i : nat) :
  i < 7 → Sqlite.parse_tax_string s !! i = Some (segments s !! i).
Proof.
  intros Hi. rewrite parse_tax_string_fit, fit_lookup by done.
  rewrite list_lookup_fmap. by destruct (segments s !! i).
Qed.

Lemma parse_tax_string_eq (s : string) :
  Sqlite.parse_tax_string s = (λ i, segments s !! i) <$> seq 0 7.
Proof.
  apply list_eq. intros i. destruct (decide (i < 7)) as [Hi|Hi].
  - rewrite parse_tax_string_lookup by done.
    do 7 (destruct i as [|i]; [done|]). exfalso. lia.
  - rewrite !lookup_ge_None_2; [done| |].
    + rewrite length_fmap, length_seq. lia.
    + rewrite parse_tax_string_fit, fit_length. lia.
Qed.

Lemma unpack7_fit {A} (pad : A) l :
  ∃ a b c d e f g,
    fit 7 pad l = [a; b; c; d; e; f; g] ∧
    Sqlite.unpack7 (fit 7 pad l) = Ok (a, b, c, d, e, f, g).
Proof.
  pose proof (fit_length 7 pad l) as Hlen.
  destruct (fit 7 pad l) as [|a [|b [|c [|d [|e [|f [|g [|h t]]]]]]]];
    simpl in Hlen; try lia.
  by exists a, b, c, d, e, f, g.
Qed.

(** C4, as stated, fails: on a string of nine segments neither parser
    returns the nine-field parse. [split_taxonomy] returns eight entries
    and [parse_tax_string] seven; the ninth segment is in neither. *)
Lemma taxonomy_not_nine_fields :
  (∃ t, Csv.split_taxonomy "A;B;C;D;E;F;G;H;I" = Ok t ∧
        ¬ nine_fields id "" (Csv.fields t) "A;B;C;D;E;F;G;H;I") ∧
  ¬ nine_fields Some None (Sqlite.parse_tax_string "A;B;C;D;E;F;G;H;I")
      "A;B;C;D;E;F;G;H;I".
Proof.
  split.
  - eexists. split; [reflexivity|]. unfold nine_fields. vm_compute. discriminate.
  - unfold nine_fields. vm_compute. discriminate.
Qed.

(** C4, amended: for every taxonomy string, [split_taxonomy] returns
    exactly eight fields, field [i] being segment [i] when there is one and
    the empty string otherwise, and [parse_tax_string] returns exactly
    seven, field [i] being segment [i] when there is one and [None]
    otherwise; segments past the eighth, respectively the seventh, are
    discarded. *)
Theorem taxonomy_fields (s : string) :
  (∃ t, Csv.split_taxonomy s = Ok t ∧
        Csv.fields t = (λ i, default "" (segments s !! i)) <$> seq 0 8) ∧
  Sqlite.parse_tax_string s = (λ i, segments s !! i) <$> seq 0 7.
Proof.
  split.
  - eexists. split; [apply split_taxonomy_eq|]. reflexivity.
  - apply list_eq. intros i. destruct (decide (i < 7)) as [Hi|Hi].
    + rewrite parse_tax_string_lookup by done.
      do 7 (destruct i as [|i]; [done|]). exfalso. lia.
    + rewrite !lookup_ge_None_2; [done| |].
      * rewrite length_fmap, length_seq. lia.
      * rewrite parse_tax_string_fit, fit_length. lia.
Qed.

(** C7: on every string both parsers return: every index [split_taxonomy]
    reads is in bounds, the tuple of [parse_tax_string] unpacks into its
    seven names, and the records have their full width. *)
Theorem taxonomy_parsers_total (s : string) :
  (∃ t, Csv.split_taxonomy s = Ok t ∧ length (Csv.fields t) = 8) ∧
  (∃ uuid tax_class tax_order tax_family tax_genus tax_species common_name,
     Sqlite.unpack7 (Sqlite.parse_tax_string s) =
       Ok (uuid, tax_class, tax_order, tax_family, tax_genus, tax_species,
           common_name)) ∧
  length (Sqlite.parse_tax_string s) = 7.
Proof.
  split; [|split].
  - eexists. split; [apply split_taxonomy_eq|]. reflexivity.
  - rewrite parse_tax_string_fit.
    destruct (unpack7_fit None (Some <$> segments s))
      as (a & b & c & d & e & f & g & _ & Hu).
    by exists a, b, c, d, e, f, g.
  - rewrite parse_tax_string_fit. apply fit_length.
Qed.

(** C9: on a class string of more than seven segments [parse_tax_string]
    returns the first seven segments and nothing else; the name
    [common_name] is bound to the seventh, while the eighth, which
    [split_taxonomy] returns as its [common_name], is dropped. *)
Theorem relational_parser_keeps_seven (s : string) :
  7 < length (segments s) →
  Sqlite.parse_tax_string s = Some <$> take 7 (segments s) ∧
  (∃ uuid tax_class tax_order tax_family tax_genus tax_species common_name,
     Sqlite.unpack7 (Sqlite.parse_tax_string s) =
       Ok (uuid, tax_class, tax_order, tax_family, tax_genus, tax_species,
           common_name) ∧
     common_name = segments s !! 6 ∧ is_Some common_name) ∧
  (∃ t, Csv.split_taxonomy s = Ok t ∧
        segments s !! 7 = Some (Csv.common_name t)).
Proof.
  intros Hlen. split; [|split].
  - rewrite parse_tax_string_fit, fit_long by (rewrite length_fmap; lia).
    by rewrite fmap_take.
  - pose proof (parse_tax_string_lookup s 6 ltac:(lia)) as H6.
    rewrite parse_tax_string_fit in *.
    destruct (unpack7_fit None (Some <$> segments s))
      as (a & b & c & d & e & f & g & Heq & Hu).
    exists a, b, c, d, e, f, g. split; [done|].
    rewrite Heq in H6. simpl in H6. injection H6 as ->.
    split; [done|]. apply lookup_lt_is_Some_2. lia.
  - eexists. split; [apply split_taxonomy_eq|]. simpl.
    destruct (lookup_lt_is_Some_2 (segments s) 7 Hlen) as [x Hx].
    by rewrite Hx.
Qed.

(** The parser on a string of eight segments. *)
Lemma relational_parser_keeps_seven_witness :
  7 < length (segments "A;B;C;D;E;F;G;H") ∧
  Sqlite.parse_tax_string "A;B;C;D;E;F;G;H" =
    Some <$> take 7 (segments "A;B;C;D;E;F;G;H").
Proof.
  split; [vm_compute; lia|].
  apply (relational_parser_keeps_seven "A;B;C;D;E;F;G;H"). vm_compute. lia.
Defined.

(** ** The CSV sink *)

Lemma pad_lookup (bbox : list value) (i : nat) :
  i < 4 → Csv.pad bbox !! i = Some (default Csv.empty (bbox !! i)).
Proof.
  intros Hi. unfold Csv.pad. by apply lookup_padded.
Qed.

Lemma take_bbox_index (d : Json.Detection) (i : nat) :
  i < 4 →
  index (Csv.take_bbox d).2 i = Ok (default Csv.empty (get (Json.bbox d) [] !! i)).
Proof.
  intros Hi. unfold Csv.take_bbox.
  destruct (Json.bbox d) as [b|]; simpl.
  - by apply index_lookup, pad_lookup.
  - do 4 (destruct i as [|i]; [done|]). exfalso. lia.
Qed.

Lemma class_row_eq f c m scores ic :
  Csv.class_row f c m scores ic = Ok (csv_class_row_of f c m scores ic).
Proof.
  destruct ic as [i cls]. unfold Csv.class_row.
  rewrite split_taxonomy_eq. simpl. by rewrite index_or_lookup.
Qed.

Lemma detection_row_eq f c m id :
  Csv.detection_row f c m id = Ok (csv_detection_row_of f c m id).
Proof.
  destruct id as [i d]. unfold Csv.detection_row.
  by rewrite !take_bbox_index by lia.
Qed.

(** Padding a list that was padded before changes nothing: the row of a
    detection is the same after [take_bbox] extended its list in place. *)
Lemma csv_detection_row_of_take_bbox f c m i d :
  csv_detection_row_of f c m (i, (Csv.take_bbox d).1)
  = csv_detection_row_of f c m (i, d).
Proof.
  unfold csv_detection_row_of, Csv.take_bbox.
  destruct d as [cat lab cnf [b|]]; simpl; [|done].
  rewrite !pad_lookup by lia. done.
Qed.

(** The CSV flattening of a prediction never raises, and this is what it
    writes. *)
Lemma flatten_eq (pred : Json.Prediction) :
  Csv.flatten pred =
  Ok (csv_summary_of pred,
      csv_class_row_of (get (Json.filepath pred) Csv.empty)
        (get (Json.country pred) Csv.empty)
        (get (Json.model_version pred) Csv.empty)
        (scores_of pred) <$> enumerate (classes_of pred),
      csv_detection_row_of (get (Json.filepath pred) Csv.empty)
        (get (Json.country pred) Csv.empty)
        (get (Json.model_version pred) Csv.empty)
        <$> enumerate (detections_of pred)).
Proof.
  unfold Csv.flatten.
  fold (classes_of pred) (scores_of pred) (detections_of pred).
  rewrite !index_or_lookup. simpl.
  set (det0 := default Json.empty_detection (detections_of pred !! 0)).
  destruct (Csv.take_bbox det0) as [det0' bbox] eqn:Hb.
  assert (bbox = (Csv.take_bbox det0).2) as -> by (by rewrite Hb).
  assert (det0' = (Csv.take_bbox det0).1) as -> by (by rewrite Hb).
  rewrite !take_bbox_index by lia. simpl.
  rewrite (for_each_total _ _ _ (class_row_eq _ _ _ _)). simpl.
  rewrite (for_each_total _ _ _ (detection_row_eq _ _ _)). simpl.
  do 2 f_equal.
  subst det0. unfold enumerate.
  destruct (detections_of pred) as [|d rest]; simpl; [done|].
  by rewrite csv_detection_row_of_take_bbox.
Qed.

(** ** The SQLite sink *)

Lemma run_prefix_for_each {A B} (body : A → result B) (l : list A) ys :
  run_prefix body l = (ys, None) ↔ for_each body l = Ok ys.
Proof.
  revert ys. induction l as [|x l IH]; intros ys; simpl.
  - split; by intros [= <-].
  - destruct (body x) as [y|e]; simpl; [|by split].
    destruct (run_prefix body l) as [ys' o] eqn:Hr.
    destruct (for_each body l) as [zs|e] eqn:Hf; simpl.
    + pose proof (proj2 (IH zs) eq_refl) as [= -> ->].
      split; by intros [= <-].
    + split; [|done]. intros [= <- ->].
      by pose proof (proj1 (IH ys') eq_refl).
Qed.

Lemma run_prefix_Forall {A B} (body : A → result B) (P : B → Prop) l :
  (∀ x y, body x = Ok y → P y) → Forall P (run_prefix body l).1.
Proof.
  intros HP. induction l as [|x l IH]; simpl; [constructor|].
  destruct (body x) as [y|e] eqn:Hy; simpl; [|constructor].
  destruct (run_prefix body l); simpl in *. constructor; eauto.
Qed.

Lemma add_rows_nil db : add_rows db [] [] = db.
Proof. destruct db. unfold add_rows. simpl. by rewrite !app_nil_r. Qed.

Lemma add_rows_add_rows db cs ds cs' ds' :
  add_rows (add_rows db cs ds) cs' ds' = add_rows db (cs ++ cs') (ds ++ ds').
Proof. unfold add_rows. simpl. by rewrite !app_assoc. Qed.

Lemma max_rowid_ge (m : gmap Z Sqlite.ImageRow) k r :
  m !! k = Some r → (k ≤ Sqlite.max_rowid m)%Z.
Proof.
  intros Hk. apply elem_of_map_to_list in Hk. unfold Sqlite.max_rowid.
  induction (map_to_list m) as [|[k' r'] l IH]; [by apply elem_of_nil in Hk|].
  rewrite fmap_cons. simpl.
  apply elem_of_cons in Hk as [[= <- <-]|Hk]; [lia|].
  apply IH in Hk. lia.
Qed.

(** The row id handed out is not taken. *)
Lemma next_rowid_fresh db : Sqlite.images db !! Sqlite.next_rowid db = None.
Proof.
  destruct (Sqlite.images db !! Sqlite.next_rowid db) as [r|] eqn:Hr; [|done].
  apply max_rowid_ge in Hr. unfold Sqlite.next_rowid in Hr. lia.
Qed.

Section Relational.

Variable float_of_str : string → option float64.

Lemma classification_params_eq image_id classes scores i :
  Sqlite.classification_params float_of_str image_id classes scores i =
  score ← relational_score float_of_str scores i;
  Ok (sqlite_class_row_of image_id (classes !! i) score i).
Proof.
  unfold Sqlite.classification_params, relational_score.
  rewrite index_or_lookup, list_lookup_fmap. simpl.
  assert ((if decide (i < length scores)
           then s ← index scores i; f ← Sqlite.float float_of_str s; Ok (Some f)
           else Ok None)
          = match scores !! i with
            | Some v => f ← Sqlite.float float_of_str v; Ok (Some f)
            | None => Ok None
            end) as ->.
  { case_decide as Hi.
    - destruct (lookup_lt_is_Some_2 scores i Hi) as [v Hv].
      by rewrite (index_lookup _ _ _ Hv), Hv.
    - by rewrite (lookup_ge_None_2 scores i) by lia. }
  destruct (scores !! i) as [v|]; simpl;
    [destruct (Sqlite.float float_of_str v) as [f|e]; simpl; [|done]|].
  all: unfold sqlite_class_row_of, relational_segments.
  all: destruct (classes !! i) as [cls|]; simpl; [|done].
  all: destruct (negb (cls =? "")%string); simpl; [|done].
  all: by rewrite parse_tax_string_eq.
Qed.

Lemma classification_params_image_id image_id classes scores i row :
  Sqlite.classification_params float_of_str image_id classes scores i = Ok row →
  Sqlite.c_image_id row = image_id ∧ Sqlite.rank_integer row = i.
Proof.
  rewrite classification_params_eq.
  destruct (relational_score _ _ _); simpl; [|done]. by intros [= <-].
Qed.

Lemma classification_loop image_id classes scores l db :
  is_Some (Sqlite.images db !! image_id) →
  Sqlite.sql_for (Sqlite.classification float_of_str image_id classes scores) l db =
  let '(cs, e) :=
    run_prefix (Sqlite.classification_params float_of_str image_id classes scores) l in
  (match e with Some e => Raise e | None => Ok () end, add_rows db cs []).
Proof.
  revert db. induction l as [|i l IH]; intros db Himg; simpl.
  - by rewrite add_rows_nil.
  - unfold mbind at 1, Sqlite.sql_bind.
    unfold Sqlite.classification at 1.
    unfold mbind at 1, Sqlite.sql_bind, Sqlite.lift.
    destruct (Sqlite.classification_params _ _ _ _ i) as [row|e] eqn:Hrow;
      simpl; [|by rewrite add_rows_nil].
    apply classification_params_image_id in Hrow as [Hid _].
    unfold Sqlite.insert_classifications. rewrite Hid.
    destruct Himg as [img Himg]. rewrite Himg.
    rewrite IH by (simpl; eauto).
    destruct (run_prefix _ l) as [cs e].
    f_equal. unfold add_rows. simpl. by rewrite <- !app_assoc.
Qed.

Lemma detection_params_eq image_id d :
  Sqlite.detection_params image_id d = Ok (sqlite_detection_row_of image_id d).
Proof.
  unfold Sqlite.detection_params, sqlite_detection_row_of.
  destruct (Json.bbox d) as [[|x [|y [|w [|h t]]]]|]; reflexivity.
Qed.

Lemma detection_checked_eq image_id d :
  detection_checked image_id d =
  match detection_binds (sqlite_detection_row_of image_id d) with
  | Ok _ => Ok (sqlite_detection_row_of image_id d)
  | Raise e => Raise e
  end.
Proof.
  unfold detection_checked. rewrite detection_params_eq. reflexivity.
Qed.

Lemma detection_loop image_id l db :
  is_Some (Sqlite.images db !! image_id) →
  Sqlite.sql_for (Sqlite.detection image_id) l db =
  let '(ds, e) := run_prefix (detection_checked image_id) l in
  (match e with Some e => Raise e | None => Ok () end, add_rows db [] ds).
Proof.
  revert db. induction l as [|d l IH]; intros db Himg.
  - simpl. by rewrite add_rows_nil.
  - cbn [Sqlite.sql_for run_prefix].
    rewrite detection_checked_eq.
    unfold mbind at 1, Sqlite.sql_bind.
    unfold Sqlite.detection at 1.
    unfold mbind at 1, Sqlite.sql_bind, Sqlite.lift.
    rewrite detection_params_eq.
    unfold Sqlite.insert_detections.
    fold (detection_binds (sqlite_detection_row_of image_id d)).
    destruct (detection_binds _) as [vs|e]; [|by rewrite add_rows_nil].
    destruct Himg as [img Himg].
    change (Sqlite.d_image_id (sqlite_detection_row_of image_id d))
      with image_id.
    rewrite Himg.
    rewrite IH by (simpl; eauto).
    destruct (run_prefix _ l) as [ds e].
    f_equal. unfold add_rows. simpl. by rewrite <- !app_assoc.
Qed.

Lemma insert_images_cases row db :
  (∃ e, Sqlite.insert_images row db = (Raise e, db) ∧
        (image_binds row = Raise e ∨
         (∃ vs, image_binds row = Ok vs) ∧
         Sqlite.is_null (Sqlite.filepath row) = true ∧
         e = IntegrityError)) ∨
  (Sqlite.insert_images row db
     = (Ok (Sqlite.next_rowid db), with_image db (Sqlite.next_rowid db) row) ∧
   (∃ vs, image_binds row = Ok vs) ∧
   Sqlite.is_null (Sqlite.filepath row) = false).
Proof.
  unfold Sqlite.insert_images. fold (image_binds row).
  destruct (image_binds row) as [vs|e]; [|left; eauto].
  destruct (Sqlite.is_null (Sqlite.filepath row)); [left|right]; eauto 10.
Qed.

(** The whole of [insert_image_and_relations]: the image insert, then
    the two loops up to their first exception. *)
Lemma insert_image_and_relations_eq pred db :
  Sqlite.insert_image_and_relations float_of_str pred db =
  match Sqlite.insert_images (Sqlite.image_params pred) db with
  | (Raise e, _) => (Raise e, db)
  | (Ok id, db1) =>
      let '(cs, e1) :=
        run_prefix
          (Sqlite.classification_params float_of_str id (classes_of pred)
             (scores_of pred))
          (seq 0 (length (classes_of pred) `max` length (scores_of pred))) in
      match e1 with
      | Some e => (Raise e, add_rows db1 cs [])
      | None =>
          let '(ds, e2) :=
            run_prefix (detection_checked id) (detections_of pred) in
          (match e2 with Some e => Raise e | None => Ok id end,
           add_rows db1 cs ds)
      end
  end.
Proof.
  unfold Sqlite.insert_image_and_relations.
  fold (classes_of pred) (scores_of pred) (detections_of pred).
  unfold mbind at 1, Sqlite.sql_bind.
  destruct (insert_images_cases (Sqlite.image_params pred) db)
    as [(e & -> & _)|(-> & _ & _)]; [done|].
  set (id := Sqlite.next_rowid db).
  set (db1 := with_image db id (Sqlite.image_params pred)).
  assert (is_Some (Sqlite.images db1 !! id)) as Himg.
  { subst db1. simpl. rewrite lookup_insert_eq. eauto. }
  unfold mbind at 1, Sqlite.sql_bind.
  rewrite classification_loop by done.
  destruct (run_prefix _ (seq _ _)) as [cs [e|]]; [done|].
  unfold mbind at 1, Sqlite.sql_bind.
  rewrite detection_loop by done.
  destruct (run_prefix _ (detections_of pred)) as [ds [e|]].
  - by rewrite add_rows_add_rows, app_nil_r.
  - unfold mret, Sqlite.sql_ret. by rewrite add_rows_add_rows, app_nil_r.
Qed.

End Relational.

(** *** Referential integrity *)

Lemma float_not_integrity float_of_str v :
  Sqlite.float float_of_str v ≠ Raise IntegrityError.
Proof.
  destruct v as [|b|z|f|s]; simpl; try done.
  - unfold Sqlite.float_of_int. by destruct (binary_normalize _ _ _ _ _).
  - unfold Sqlite.float_of_int. by destruct (binary_normalize _ _ _ _ _).
  - by destruct (float_of_str s).
Qed.

Lemma bind_param_cases v :
  Sqlite.bind_param v = Ok v ∨ Sqlite.bind_param v = Raise OverflowError.
Proof. destruct v; simpl; auto. case_decide; auto. Qed.

Lemma for_each_bind_param_cases vs :
  for_each Sqlite.bind_param vs = Ok vs ∨
  for_each Sqlite.bind_param vs = Raise OverflowError.
Proof.
  induction vs as [|v vs IH]; simpl; [auto|].
  destruct (bind_param_cases v) as [-> | ->]; simpl; [|auto].
  destruct IH as [-> | ->]; simpl; auto.
Qed.


Lemma detection_checked_error image_id d e :
  detection_checked image_id d = Raise e → e = OverflowError.
Proof.
  rewrite detection_checked_eq. unfold detection_binds.
  destruct (for_each_bind_param_cases
              [Sqlite.category (sqlite_detection_row_of image_id d);
               Sqlite.label (sqlite_detection_row_of image_id d);
               Sqlite.conf (sqlite_detection_row_of image_id d);
               Sqlite.bbox_x (sqlite_detection_row_of image_id d);
               Sqlite.bbox_y (sqlite_detection_row_of image_id d);
               Sqlite.bbox_w (sqlite_detection_row_of image_id d);
               Sqlite.bbox_h (sqlite_detection_row_of image_id d)])
    as [-> | ->]; [done|]. by intros [= <-].
Qed.

Lemma detection_checked_ok image_id d row :
  detection_checked image_id d = Ok row →
  row = sqlite_detection_row_of image_id d.
Proof.
  rewrite detection_checked_eq.
  destruct (detection_binds _); [|done]. by intros [= <-].
Qed.

Lemma detection_binds_image_id image_id image_id' d :
  detection_binds (sqlite_detection_row_of image_id d)
  = detection_binds (sqlite_detection_row_of image_id' d).
Proof. reflexivity. Qed.

Lemma detection_checked_all image_id l ds :
  run_prefix (detection_checked image_id) l = (ds, None) →
  ds = sqlite_detection_row_of image_id <$> l ∧
  Forall (λ d, ∀ image_id',
            ∃ vs, detection_binds (sqlite_detection_row_of image_id' d) = Ok vs)
         l.
Proof.
  revert ds. induction l as [|d l IH]; intros ds; simpl.
  - by intros [= <-].
  - rewrite detection_checked_eq.
    destruct (detection_binds (sqlite_detection_row_of image_id d))
      as [vs|e] eqn:Hd; [|done].
    destruct (run_prefix _ l) as [ds' e'] eqn:Hl. intros [= <- ->].
    destruct (IH ds' eq_refl) as [-> Hall]. split; [done|].
    constructor; [|done]. intros image_id'.
    rewrite (detection_binds_image_id image_id' image_id). eauto.
Qed.

Lemma run_prefix_error {A B} (body : A → result B) (P : exn → Prop) l e :
  (∀ x e, body x = Raise e → P e) → (run_prefix body l).2 = Some e → P e.
Proof.
  intros HP. induction l as [|x l IH]; simpl; [done|].
  destruct (body x) as [y|e'] eqn:Hx; simpl.
  - destruct (run_prefix body l); simpl in *. done.
  - intros [= <-]. eauto.
Qed.

Lemma classification_params_error float_of_str image_id classes scores i e :
  Sqlite.classification_params float_of_str image_id classes scores i = Raise e →
  e ≠ IntegrityError.
Proof.
  rewrite classification_params_eq. unfold relational_score.
  destruct (scores !! i) as [v|]; simpl; [|done].
  pose proof (float_not_integrity float_of_str v) as Hv.
  destruct (Sqlite.float float_of_str v); simpl; [done|]. congruence.
Qed.

Lemma referential_integrity_extend db id row cs ds :
  Sqlite.images db !! id = None →
  Forall (λ c, Sqlite.c_image_id c = id) cs →
  Forall (λ d, Sqlite.d_image_id d = id) ds →
  referential_integrity db →
  referential_integrity (add_rows (with_image db id row) cs ds).
Proof.
  intros Hfresh Hcs Hds [Hc Hd]. split; simpl.
  - apply Forall_app. split.
    + eapply Forall_impl; [exact Hc|]. intros c [img Himg]. simpl.
      rewrite lookup_insert_ne by congruence. eauto.
    + eapply Forall_impl; [exact Hcs|]. intros c ->. simpl.
      rewrite lookup_insert_eq. eauto.
  - apply Forall_app. split.
    + eapply Forall_impl; [exact Hd|]. intros d [img Himg]. simpl.
      rewrite lookup_insert_ne by congruence. eauto.
    + eapply Forall_impl; [exact Hds|]. intros d ->. simpl.
      rewrite lookup_insert_eq. eauto.
Qed.

(** C8: [insert_image_and_relations] inserts the image row first. When
    that insert raises, nothing at all is stored. Otherwise the row sits in
    [images] under an identifier [id] that was not in use, every row the
    run adds to [classifications] and [detections] carries that [id], a
    returned identifier is that [id], and no child insert is rejected by
    the foreign key; so a database whose child rows all point at images
    stays one. *)
Theorem relational_children_reference_image
    (float_of_str : string → option float64) (pred : Json.Prediction)
    (db db' : Sqlite.Db) (r : result Z) :
  Sqlite.insert_image_and_relations float_of_str pred db = (r, db') →
  (referential_integrity db → referential_integrity db') ∧
  ((∃ e, Sqlite.insert_images (Sqlite.image_params pred) db = (Raise e, db) ∧
         r = Raise e ∧ db' = db) ∨
   (∃ id cs ds,
      Sqlite.insert_images (Sqlite.image_params pred) db
        = (Ok id, with_image db id (Sqlite.image_params pred)) ∧
      Sqlite.images db !! id = None ∧
      Sqlite.images db' !! id = Some (Sqlite.image_params pred) ∧
      db' = add_rows (with_image db id (Sqlite.image_params pred)) cs ds ∧
      Forall (λ c, Sqlite.c_image_id c = id) cs ∧
      Forall (λ d, Sqlite.d_image_id d = id) ds ∧
      (r = Ok id ∨ ∃ e, r = Raise e ∧ e ≠ IntegrityError))).
Proof.
  rewrite insert_image_and_relations_eq.
  destruct (insert_images_cases (Sqlite.image_params pred) db)
    as [(e & Hins & _)|(Hins & _ & _)]; rewrite Hins.
  { intros [= <- <-]. split; [done|]. left. eauto. }
  set (id := Sqlite.next_rowid db).
  set (row := Sqlite.image_params pred).
  set (body := Sqlite.classification_params _ _ _ _).
  pose proof (run_prefix_Forall body (λ c, Sqlite.c_image_id c = id)
                (seq 0 (length (classes_of pred) `max` length (scores_of pred))))
    as Hcs.
  pose proof (run_prefix_error body (λ e, e ≠ IntegrityError)
                (seq 0 (length (classes_of pred) `max` length (scores_of pred))))
    as Hce.
  pose proof (run_prefix_Forall (detection_checked id)
                (λ d, Sqlite.d_image_id d = id) (detections_of pred)) as Hds.
  pose proof (run_prefix_error (detection_checked id)
                (λ e, e ≠ IntegrityError) (detections_of pred)) as Hde.
  destruct (run_prefix body _) as [cs e1]. simpl in Hcs, Hce.
  destruct (run_prefix (detection_checked id) _) as [ds e2]. simpl in Hds, Hde.
  assert (Forall (λ c, Sqlite.c_image_id c = id) cs) as Hcs'.
  { apply Hcs. intros i c Hc.
    by apply classification_params_image_id in Hc as [-> _]. }
  assert (Forall (λ d, Sqlite.d_image_id d = id) ds) as Hds'.
  { apply Hds. intros d q Hq.
    by rewrite (detection_checked_ok _ _ _ Hq). }
  assert (∀ e, e1 = Some e → e ≠ IntegrityError) as Hce'.
  { intros e He. apply (Hce e); [|done].
    intros i e'. apply classification_params_error. }
  assert (∀ e, e2 = Some e → e ≠ IntegrityError) as Hde'.
  { intros e He. apply (Hde e); [|done].
    intros d e' Hd. by rewrite (detection_checked_error _ _ _ Hd). }
  pose proof (next_rowid_fresh db) as Hfresh. fold id in Hfresh.
  destruct e1 as [e|].
  - intros [= <- <-]. split.
    + apply referential_integrity_extend; auto.
    + right. exists id, cs, []. simpl. rewrite lookup_insert_eq.
      repeat split; eauto.
  - intros [= <- <-]. split.
    + apply referential_integrity_extend; auto.
    + right. exists id, cs, ds. simpl. rewrite lookup_insert_eq.
      repeat split; auto.
      destruct e2 as [e|]; [right|left]; eauto.
Qed.

(** A prediction stored in an empty database. *)
Lemma relational_children_reference_image_witness :
  ∃ db',
    Sqlite.insert_image_and_relations no_float_of_str one_class empty_db
      = (Ok 1%Z, db') ∧
    (referential_integrity empty_db → referential_integrity db').
Proof.
  eexists. split; [vm_compute; reflexivity|].
  eapply (relational_children_reference_image no_float_of_str one_class empty_db).
  vm_compute. reflexivity.
Defined.


(** C10, as stated, fails at a prediction without "filepath" whose
    "country" is [2 ** 63]: the driver cannot bind that integer, the
    insert into [images] raises an [OverflowError] before the statement
    runs, and no constraint is violated. *)
Lemma absent_filepath_overflow :
  Json.filepath no_filepath_big_country = None ∧
  Sqlite.insert_image_and_relations no_float_of_str no_filepath_big_country
    empty_db = (Raise OverflowError, empty_db) ∧
  Sqlite.insert_image_and_relations no_float_of_str no_filepath_big_country
    empty_db ≠ (Raise IntegrityError, empty_db).
Proof.
  split; [reflexivity|].
  assert (Sqlite.insert_image_and_relations no_float_of_str
            no_filepath_big_country empty_db
          = (Raise OverflowError, empty_db)) as Hrun
    by (vm_compute; reflexivity).
  split; [exact Hrun|]. rewrite Hrun. discriminate.
Qed.

(** C10, amended: a prediction without the "filepath" key makes the
    SQLite sink hand [None] to the NOT NULL column [filepath]; the insert
    into [images] raises, [insert_image_and_relations] raises the same
    exception and leaves the database as it was. The exception is the
    constraint violation when the driver binds the six parameters, and its
    [OverflowError] when it cannot. The CSV sink writes the record: the
    summary row of the prediction with [""] for the file path, and its
    classification and detection rows, one per class and one per
    detection, each with [""] for the file path. *)
Theorem absent_filepath_rejected
    (float_of_str : string → option float64) (pred : Json.Prediction)
    (db : Sqlite.Db) :
  Json.filepath pred = None →
  Sqlite.filepath (Sqlite.image_params pred) = VNone ∧
  (∃ e,
     Sqlite.insert_images (Sqlite.image_params pred) db = (Raise e, db) ∧
     Sqlite.insert_image_and_relations float_of_str pred db = (Raise e, db) ∧
     e = match image_binds (Sqlite.image_params pred) with
         | Ok _ => IntegrityError
         | Raise _ => OverflowError
         end) ∧
  ∃ summary cs ds,
    Csv.flatten pred = Ok (summary, cs, ds) ∧
    Csv.main (Some [pred])
      = Ok {| Csv.summary_csv := [summary]; Csv.classifications_csv := cs;
              Csv.detections_csv := ds |} ∧
    summary = csv_summary_of pred ∧
    cs = csv_class_rows_of pred ∧
    ds = csv_detection_rows_of pred ∧
    Csv.s_filepath summary = VStr "" ∧
    length cs = length (classes_of pred) ∧
    length ds = length (detections_of pred) ∧
    Forall (λ c, Csv.c_filepath c = VStr "") cs ∧
    Forall (λ d, Csv.d_filepath d = VStr "") ds.
Proof.
  intros Hfp.
  assert (Sqlite.filepath (Sqlite.image_params pred) = VNone) as Hnull.
  { unfold Sqlite.image_params. simpl. by rewrite Hfp. }
  split; [done|]. split.
  - destruct (insert_images_cases (Sqlite.image_params pred) db)
      as [(e & Hins & He)|(_ & _ & Hnot)];
      [|by rewrite Hnull in Hnot].
    exists e. split; [done|]. split.
    + by rewrite insert_image_and_relations_eq, Hins.
    + destruct He as [He|([vs Hvs] & _ & ->)]; [|by rewrite Hvs].
      rewrite He. unfold image_binds in He.
      destruct (for_each_bind_param_cases
                  [Sqlite.filepath (Sqlite.image_params pred);
                   Sqlite.country (Sqlite.image_params pred);
                   Sqlite.prediction (Sqlite.image_params pred);
                   Sqlite.prediction_score (Sqlite.image_params pred);
                   Sqlite.prediction_source (Sqlite.image_params pred);
                   Sqlite.model_version (Sqlite.image_params pred)])
        as [Hok|Hov]; congruence.
  - do 3 eexists. split; [apply flatten_eq|]. split.
    { unfold Csv.main. simpl. by rewrite flatten_eq. }
    split; [done|]. split; [done|]. split; [done|].
    unfold csv_summary_of. simpl. rewrite Hfp. simpl. split; [done|].
    unfold enumerate. rewrite !length_fmap, !enumerate_from_length.
    split; [done|]. split; [done|].
    split; apply Forall_fmap, Forall_forall; done.
Qed.

(** A prediction without "filepath" against an empty database. *)
Lemma absent_filepath_rejected_witness :
  Json.filepath no_filepath = None ∧
  Sqlite.insert_image_and_relations no_float_of_str no_filepath empty_db
    = (Raise IntegrityError, empty_db).
Proof.
  split; [reflexivity|].
  destruct (absent_filepath_rejected no_float_of_str no_filepath empty_db
              eq_refl) as (_ & (e & _ & Hrun & ->) & _).
  exact Hrun.
Defined.

(** ** The bbox columns *)

Lemma fit4_eq {A} (pad : A) (b : list A) :
  fit 4 pad b =
  [default pad (b !! 0); default pad (b !! 1); default pad (b !! 2);
   default pad (b !! 3)].
Proof. by destruct b as [|x [|y [|w [|h t]]]]. Qed.

(** C6: a detection whose "bbox" list has fewer than four entries gets
    four bbox columns in both sinks, the entries of the list followed by
    the missing-value mark of the sink ([""] or [None]); of a list of four
    entries or more the first four are the columns; no exception is
    raised. The CSV row is the same once the list was extended in place. *)
Theorem bbox_four_components (d : Json.Detection) (b : list value)
    (filepath country model_version : value) (i : nat) (image_id : Z) :
  Json.bbox d = Some b →
  ∃ r q,
    Csv.detection_row filepath country model_version (i, d) = Ok r ∧
    Csv.detection_row filepath country model_version (i, (Csv.take_bbox d).1)
      = Ok r ∧
    Sqlite.detection_params image_id d = Ok q ∧
    (length b < 4 →
       csv_bbox r = b ++ replicate (4 - length b) (VStr "") ∧
       sqlite_bbox q = b ++ replicate (4 - length b) VNone) ∧
    (4 ≤ length b → csv_bbox r = take 4 b ∧ sqlite_bbox q = take 4 b).
Proof.
  intros Hb. do 2 eexists.
  split; [apply detection_row_eq|].
  split; [by rewrite detection_row_eq, csv_detection_row_of_take_bbox|].
  split; [apply detection_params_eq|].
  unfold csv_bbox, sqlite_bbox. simpl. rewrite Hb. simpl.
  rewrite <- !fit4_eq. split; intros Hlen.
  - by rewrite !fit_short by lia.
  - by rewrite !fit_long by lia.
Qed.

(** A detection with a bbox of two entries. *)
Lemma bbox_four_components_witness :
  Json.bbox sample_detection = Some [VFloat half; VFloat quarter] ∧
  ∃ r q,
    Csv.detection_row (VStr "a.jpg") (VStr "GT") (VStr "") (0, sample_detection)
      = Ok r ∧
    Sqlite.detection_params 1 sample_detection = Ok q ∧
    csv_bbox r = [VFloat half; VFloat quarter; VStr ""; VStr ""] ∧
    sqlite_bbox q = [VFloat half; VFloat quarter; VNone; VNone].
Proof.
  split; [reflexivity|].
  destruct (bbox_four_components sample_detection [VFloat half; VFloat quarter]
              (VStr "a.jpg") (VStr "GT") (VStr "") 0 1 eq_refl)
    as (r & q & Hr & _ & Hq & Hshort & _).
  exists r, q. split; [done|]. split; [done|].
  apply Hshort. simpl. lia.
Defined.

(** ** Rows and ranks *)

(** A run of the SQLite sink that returns has stored the image, one
    classification row per position up to the longer of the two lists,
    and one detection row per detection. *)
Lemma insert_image_and_relations_ok
    (float_of_str : string → option float64) (pred : Json.Prediction)
    (db db' : Sqlite.Db) (id : Z) :
  Sqlite.insert_image_and_relations float_of_str pred db = (Ok id, db') →
  id = Sqlite.next_rowid db ∧
  ∃ cs,
    for_each
      (Sqlite.classification_params float_of_str id (classes_of pred)
         (scores_of pred))
      (seq 0 (length (classes_of pred) `max` length (scores_of pred))) = Ok cs ∧
    db' = add_rows (with_image db id (Sqlite.image_params pred)) cs
            (sqlite_detection_row_of id <$> detections_of pred).
Proof.
  rewrite insert_image_and_relations_eq.
  destruct (insert_images_cases (Sqlite.image_params pred) db)
    as [(e & -> & _)|(-> & _)]; [done|].
  destruct (run_prefix _ (seq _ _)) as [cs [e|]] eqn:Hrun; [done|].
  destruct (run_prefix _ (detections_of pred)) as [ds [e|]] eqn:Hdets; [done|].
  intros [= <- <-]. split; [done|]. exists cs.
  apply detection_checked_all in Hdets as [-> _]. split; [|done].
  by apply run_prefix_for_each.
Qed.

(** X25: a prediction stored without an exception gets classification
    rows whose [rank_integer] are 0, 1, ... up to one below the length of
    the longer of [classes] and [scores], in insertion order. *)
Lemma relational_ranks
    (float_of_str : string → option float64) (pred : Json.Prediction)
    (db db' : Sqlite.Db) (id : Z) :
  Sqlite.insert_image_and_relations float_of_str pred db = (Ok id, db') →
  ∃ cs,
    Sqlite.classifications db' = Sqlite.classifications db ++ cs ∧
    Sqlite.rank_integer <$> cs
      = seq 0 (length (classes_of pred) `max` length (scores_of pred)).
Proof.
  intros Hrun. apply insert_image_and_relations_ok in Hrun as (_ & cs & Hcs & ->).
  exists cs. split; [done|].
  apply for_each_Forall2 in Hcs.
  remember (seq 0 _) as l eqn:Hl. clear Hl.
  induction Hcs as [|i c l cs Hc _ IH]; [done|].
  rewrite fmap_cons, IH.
  by apply classification_params_image_id in Hc as [_ ->].
Qed.

(** X24: the CSV sink writes one classification row per class string,
    with [class_rank] 1, 2, ... in input order, and reports the length of
    the longer of [classes] and [scores] as [num_classes]. *)
Lemma csv_ranks (pred : Json.Prediction) :
  ∃ summary cs ds,
    Csv.flatten pred = Ok (summary, cs, ds) ∧
    Csv.class_rank <$> cs = seq 1 (length (classes_of pred)) ∧
    Csv.num_classes summary
      = length (classes_of pred) `max` length (scores_of pred).
Proof.
  do 3 eexists. split; [apply flatten_eq|]. split; [|done].
  rewrite <- list_fmap_compose. unfold enumerate.
  generalize 0. induction (classes_of pred) as [|c l IH]; intros start; simpl; [done|].
  rewrite IH. f_equal. lia.
Qed.

(** C1 at [classes = []], [scores = [0.5, 0.25]]: the CSV sink reports
    [num_classes = 2] in the summary row and writes no classification row,
    while the SQLite sink stores two. *)
Theorem csv_rows_fall_short_of_num_classes :
  (∃ summary,
     Csv.flatten scores_only = Ok (summary, [], []) ∧
     Csv.num_classes summary = 2) ∧
  (∃ db',
     Sqlite.insert_image_and_relations no_float_of_str scores_only empty_db
       = (Ok 1%Z, db') ∧
     length (Sqlite.classifications db') = 2 ∧
     Sqlite.score <$> Sqlite.classifications db' = [Some half; Some quarter] ∧
     Sqlite.class_uuid <$> Sqlite.classifications db' = [None; None]).
Proof.
  split.
  - eexists. split; [vm_compute; reflexivity|]. reflexivity.
  - eexists. split; [vm_compute; reflexivity|]. simpl. done.
Qed.

(** C3 at one class with its score: the SQLite sink stores the row with
    [rank_integer = 0], the CSV sink writes it with [class_rank = 1]. *)
Theorem relational_rank_starts_at_zero :
  (∃ db',
     Sqlite.insert_image_and_relations no_float_of_str one_class empty_db
       = (Ok 1%Z, db') ∧
     Sqlite.rank_integer <$> Sqlite.classifications db' = [0]) ∧
  (∃ summary cs ds,
     Csv.flatten one_class = Ok (summary, cs, ds) ∧
     Csv.class_rank <$> cs = [1] ∧
     Csv.num_classes summary = 1).
Proof.
  split.
  - eexists. split; [vm_compute; reflexivity|]. reflexivity.
  - do 3 eexists. split; [vm_compute; reflexivity|]. split; reflexivity.
Qed.

(** ** The two sinks side by side *)

Lemma text_agree_segments (cls : string) (k : nat) :
  text_agree (default "" (segments cls !! k))
             (relational_segments (Some cls) !! k).
Proof.
  unfold relational_segments, text_agree. simpl.
  destruct cls as [|a cls]; simpl.
  - right. by destruct k.
  - destruct (segments (String a cls) !! k); simpl; auto.
Qed.

Lemma value_agree_get (field : option value) :
  value_agree (get field (VStr "")) (get field VNone).
Proof. destruct field; [left|right]; done. Qed.

Lemma value_agree_default (o : option value) :
  value_agree (default (VStr "") o) (default VNone o).
Proof. destruct o; [left|right]; done. Qed.

Lemma detection_rows_agree_of f c m i image_id d :
  detection_rows_agree (csv_detection_row_of f c m (i, d))
                       (sqlite_detection_row_of image_id d).
Proof.
  unfold detection_rows_agree, csv_bbox, sqlite_bbox. simpl.
  do 3 (split; [apply value_agree_get|]).
  repeat (constructor; [apply value_agree_default|]). constructor.
Qed.

Lemma detection_rows_agree_all f c m image_id (l : list Json.Detection) start :
  Forall2 detection_rows_agree
    (csv_detection_row_of f c m <$> enumerate_from start l)
    (sqlite_detection_row_of image_id <$> l).
Proof.
  revert start. induction l as [|d l IH]; intros start; simpl; constructor.
  - apply detection_rows_agree_of.
  - apply IH.
Qed.

Lemma relational_score_converted float_of_str scores i sc :
  relational_score float_of_str scores i = Ok sc →
  score_converted float_of_str (default (VStr "") (scores !! i)) sc.
Proof.
  unfold relational_score, score_converted.
  destruct (scores !! i) as [v|]; simpl.
  - destruct (Sqlite.float float_of_str v); simpl; [|done]. by intros [= <-].
  - by intros [= <-].
Qed.

Lemma class_rows_agree_of float_of_str f c m image_id classes scores i cls r :
  classes !! i = Some cls →
  Sqlite.classification_params float_of_str image_id classes scores i = Ok r →
  class_rows_agree_by_position float_of_str
    (csv_class_row_of f c m scores (i, cls)) r.
Proof.
  intros Hcls. rewrite classification_params_eq, Hcls.
  destruct (relational_score float_of_str scores i) as [sc|] eqn:Hsc;
    simpl; [|done].
  intros [= <-]. split.
  - unfold csv_fields, sqlite_fields. simpl.
    repeat (constructor; [apply text_agree_segments|]). constructor.
  - simpl. by apply relational_score_converted.
Qed.

(** C2, as stated, fails at one class of eight segments with its score:
    the rows of the two sinks differ in the rank (1 against 0) and in the
    taxonomy fields, eight against seven, the CSV [common_name] being the
    eighth segment and the SQLite one the seventh. *)
Lemma sinks_differ :
  ∃ db' summary c ds r,
    Csv.flatten one_class = Ok (summary, [c], ds) ∧
    Sqlite.insert_image_and_relations no_float_of_str one_class empty_db
      = (Ok 1%Z, db') ∧
    Sqlite.classifications db' = [r] ∧
    Csv.class_rank c = 1 ∧ Sqlite.rank_integer r = 0 ∧
    Csv.c_common_name c = "H" ∧ Sqlite.common_name r = Some "G" ∧
    length (csv_fields c) = 8 ∧ length (sqlite_fields r) = 7 ∧
    ¬ class_rows_agree c r.
Proof.
  do 5 eexists.
  split; [vm_compute; reflexivity|].
  split; [vm_compute; reflexivity|].
  split; [reflexivity|].
  repeat (split; [reflexivity|]).
  intros (Hrank & _). vm_compute in Hrank. discriminate.
Qed.

Lemma enumerate_lookup {A} (l : list A) (i : nat) :
  enumerate l !! i = (λ x, (i, x)) <$> l !! i.
Proof. unfold enumerate. by rewrite enumerate_from_lookup. Qed.

Lemma class_rows_agree_prefix float_of_str f c m image_id classes scores n rcs :
  length classes ≤ n →
  Forall2 (λ i r, Sqlite.classification_params float_of_str image_id classes
                    scores i = Ok r) (seq 0 n) rcs →
  Forall2 (class_rows_agree_by_position float_of_str)
    (csv_class_row_of f c m scores <$> enumerate classes)
    (take (length classes) rcs).
Proof.
  intros Hn Hrcs. pose proof (Forall2_length _ _ _ Hrcs) as Hlen.
  rewrite length_seq in Hlen.
  apply Forall2_same_length_lookup_2.
  { rewrite length_fmap, length_take. unfold enumerate.
    rewrite enumerate_from_length. lia. }
  intros i x y Hx Hy.
  rewrite list_lookup_fmap, enumerate_lookup in Hx.
  destruct (classes !! i) as [cls|] eqn:Hcls; [|done].
  simpl in Hx. injection Hx as <-.
  apply lookup_take_Some in Hy as [Hy Hi].
  destruct (Forall2_lookup_r _ _ _ _ _ Hrcs Hy) as (j & Hj & Hparams).
  apply lookup_seq in Hj as [-> _]. simpl in Hparams.
  by eapply class_rows_agree_of.
Qed.

(** C2, amended: for every prediction the SQLite sink stores without an
    exception, the detection rows of the two sinks are the same in
    category, label, conf and the four bbox columns, up to [""] against
    [None] for a missing value; and at each position that has a class, the
    seven taxonomy fields of the SQLite row are the first seven of the
    eight of the CSV row (up to [""] against [None]) and its score is
    [float] of the score of the CSV row, [None] where that one is [""]. *)
Theorem sinks_agree_by_position
    (float_of_str : string → option float64) (pred : Json.Prediction)
    (db db' : Sqlite.Db) (id : Z) :
  Sqlite.insert_image_and_relations float_of_str pred db = (Ok id, db') →
  ∃ summary cs ds rcs rds,
    Csv.flatten pred = Ok (summary, cs, ds) ∧
    Sqlite.classifications db' = Sqlite.classifications db ++ rcs ∧
    Sqlite.detections db' = Sqlite.detections db ++ rds ∧
    Forall2 (class_rows_agree_by_position float_of_str)
      cs (take (length cs) rcs) ∧
    Forall2 detection_rows_agree ds rds.
Proof.
  intros Hrun.
  apply insert_image_and_relations_ok in Hrun as (_ & rcs & Hrcs & ->).
  do 3 eexists. exists rcs, (sqlite_detection_row_of id <$> detections_of pred).
  split; [apply flatten_eq|]. split; [done|]. split; [done|]. split.
  - rewrite length_fmap. unfold enumerate at 2.
    rewrite enumerate_from_length.
    apply for_each_Forall2 in Hrcs.
    eapply class_rows_agree_prefix; [|exact Hrcs]. lia.
  - apply detection_rows_agree_all.
Qed.

(** Both sinks on one class of eight segments and one detection. *)
Lemma sinks_agree_by_position_witness :
  ∃ db' summary cs ds,
    Sqlite.insert_image_and_relations no_float_of_str one_class empty_db
      = (Ok 1%Z, db') ∧
    Csv.flatten one_class = Ok (summary, cs, ds) ∧
    Forall2 (class_rows_agree_by_position no_float_of_str)
      cs (take (length cs) (Sqlite.classifications db')) ∧
    Forall2 detection_rows_agree ds (Sqlite.detections db').
Proof.
  destruct (sinks_agree_by_position no_float_of_str one_class empty_db
              (Sqlite.insert_image_and_relations no_float_of_str one_class
                 empty_db).2 1%Z)
    as (summary & cs & ds & rcs & rds & Hcsv & Hrcs & Hrds & Hc & Hd).
  { vm_compute. reflexivity. }
  do 4 eexists. split; [vm_compute; reflexivity|].
  split; [exact Hcsv|].
  simpl in Hrcs, Hrds. rewrite <- Hrcs in Hc. rewrite <- Hrds in Hd.
  split; [exact Hc|exact Hd].
Defined.

(** ** Numeric fields *)

Lemma fmap_enumerate_from {A B} (g : nat * A → B) (h : A → B)
    (start : nat) (l : list A) :
  (∀ i x, g (i, x) = h x) → g <$> enumerate_from start l = h <$> l.
Proof.
  intros Hg. revert start. induction l as [|x l IH]; intros start; simpl; [done|].
  by rewrite Hg, IH.
Qed.

Lemma csv_scores_passed f c m (classes : list string) (scores : list value) :
  let cs := csv_class_row_of f c m scores <$> enumerate classes in
  Forall2 (λ v row, Csv.c_score row = v)
    (take (length cs) scores) (take (length scores) cs).
Proof.
  intros cs. apply Forall2_same_length_lookup_2.
  { rewrite !length_take. lia. }
  intros i v row Hv Hrow.
  apply lookup_take_Some in Hv as [Hv _].
  apply lookup_take_Some in Hrow as [Hrow _].
  subst cs. rewrite list_lookup_fmap, enumerate_lookup in Hrow.
  destruct (classes !! i) as [cls|]; [|done].
  simpl in Hrow. injection Hrow as <-. simpl. by rewrite Hv.
Qed.

Lemma relational_scores_converted float_of_str image_id classes scores n rcs :
  Forall2 (λ i r, Sqlite.classification_params float_of_str image_id classes
                    scores i = Ok r) (seq 0 n) rcs →
  length scores ≤ n →
  Forall2 (λ v r, ∃ f, Sqlite.score r = Some f ∧
                       Sqlite.float float_of_str v = Ok f)
    scores (take (length scores) rcs).
Proof.
  intros Hrcs Hn. pose proof (Forall2_length _ _ _ Hrcs) as Hlen.
  rewrite length_seq in Hlen.
  apply Forall2_same_length_lookup_2.
  { rewrite length_take. lia. }
  intros i v r Hv Hr.
  apply lookup_take_Some in Hr as [Hr _].
  destruct (Forall2_lookup_r _ _ _ _ _ Hrcs Hr) as (j & Hj & Hparams).
  apply lookup_seq in Hj as [-> _]. simpl in Hparams.
  rewrite classification_params_eq in Hparams.
  unfold relational_score in Hparams. rewrite Hv in Hparams. simpl in Hparams.
  destruct (Sqlite.float float_of_str v) as [f'|]; simpl in Hparams; [|done].
  injection Hparams as <-. by exists f'.
Qed.

Lemma relational_score_ok float_of_str (scores : list value) (i : nat) :
  (∃ sc, relational_score float_of_str scores i = Ok sc) ↔
  (∀ v, scores !! i = Some v → ∃ f, Sqlite.float float_of_str v = Ok f).
Proof.
  unfold relational_score. destruct (scores !! i) as [v|]; simpl.
  - destruct (Sqlite.float float_of_str v) as [f|e] eqn:Hf; simpl; split.
    + intros _ v' [= <-]. eauto.
    + eauto.
    + by intros [sc ?].
    + intros H. destruct (H v eq_refl) as [f Hf']. congruence.
  - split; [by intros _ v ?|eauto].
Qed.

Lemma run_prefix_all_ok {A B} (body : A → result B) (l : list A) :
  Forall (λ x, ∃ y, body x = Ok y) l ↔ (run_prefix body l).2 = None.
Proof.
  induction l as [|x l IH]; simpl; [done|].
  rewrite Forall_cons, IH.
  destruct (body x) as [y|e]; simpl.
  - destruct (run_prefix body l) as [ys o]; simpl. split; [by intros [_ ?]|eauto].
  - split; [by intros [[? ?] _]|done].
Qed.

Lemma run_prefix_stops {A B} (body : A → result B) (l1 l2 : list A) x e :
  Forall (λ x, ∃ y, body x = Ok y) l1 →
  body x = Raise e →
  (run_prefix body (l1 ++ x :: l2)).2 = Some e ∧
  length (run_prefix body (l1 ++ x :: l2)).1 = length l1.
Proof.
  intros Hl1 Hx. induction Hl1 as [|z l1 [y Hy] _ IH]; simpl.
  - by rewrite Hx.
  - rewrite Hy. destruct (run_prefix body (l1 ++ x :: l2)) as [ys o].
    simpl in *. destruct IH as [-> ->]. done.
Qed.

Lemma classification_params_ok float_of_str image_id classes scores i :
  (∃ r, Sqlite.classification_params float_of_str image_id classes scores i
          = Ok r) ↔
  (∀ v, scores !! i = Some v → ∃ f, Sqlite.float float_of_str v = Ok f).
Proof.
  rewrite classification_params_eq, <- relational_score_ok.
  destruct (relational_score float_of_str scores i) as [sc|e]; simpl.
  - split; eauto.
  - split; by intros [? ?].
Qed.

Lemma classification_loop_ok float_of_str image_id classes scores (n : nat) :
  length scores ≤ n →
  (run_prefix
     (Sqlite.classification_params float_of_str image_id classes scores)
     (seq 0 n)).2 = None ↔
  Forall (λ v, ∃ f, Sqlite.float float_of_str v = Ok f) scores.
Proof.
  intros Hn. rewrite <- run_prefix_all_ok, !Forall_forall. split.
  - intros H v Hv. apply list_elem_of_lookup in Hv as [i Hi].
    assert (i ∈ seq 0 n) as Hin.
    { apply elem_of_seq. apply lookup_lt_Some in Hi. lia. }
    apply H in Hin.
    exact (proj1 (classification_params_ok _ _ _ _ _) Hin v Hi).
  - intros H i _. apply classification_params_ok. intros v Hv.
    apply H. by eapply list_elem_of_lookup_2.
Qed.

(** C5, as stated, fails in the SQLite sink: the score [1], an integer,
    reaches the database as the double 1.0, and the score [null], which
    the CSV sink writes as it is, makes the SQLite sink raise a
    [TypeError] before any classification row is stored. *)
Lemma relational_score_not_passed_through :
  (∃ db' r,
     Sqlite.insert_image_and_relations no_float_of_str int_score empty_db
       = (Ok 1%Z, db') ∧
     Sqlite.classifications db' = [r] ∧
     scores_of int_score = [VInt 1] ∧
     stored_score r = VFloat (S754_finite false 4503599627370496 (-52)) ∧
     stored_score r ≠ VInt 1) ∧
  (∃ db',
     Sqlite.insert_image_and_relations no_float_of_str null_score empty_db
       = (Raise TypeError, db') ∧
     Sqlite.classifications db' = []) ∧
  (∃ summary c,
     Csv.flatten null_score = Ok (summary, [c], []) ∧ Csv.c_score c = VNone).
Proof.
  split; [|split].
  - do 2 eexists. split; [vm_compute; reflexivity|].
    split; [reflexivity|]. split; [reflexivity|]. split; [reflexivity|].
    vm_compute. discriminate.
  - eexists. split; [vm_compute; reflexivity|]. reflexivity.
  - do 2 eexists. split; [vm_compute; reflexivity|]. reflexivity.
Qed.

(** C5, amended: the CSV sink hands [prediction_score], every score that
    has a row, and the [conf] and the bbox entries of every detection to
    its writers as they are in the input, whatever the prediction; it
    writes one row per class and one per detection. The SQLite sink, when
    it stores a prediction without an exception, has handed
    [prediction_score], [conf] and the bbox entries to the database as they
    are, and [float] of each score; a score that [float] rejects makes it
    raise. Where the input has no value the CSV sink has [""] and the
    SQLite sink [None]. *)
Theorem numeric_fields_passed_through
    (float_of_str : string → option float64) (pred : Json.Prediction)
    (db : Sqlite.Db) :
  (∃ summary cs ds,
     Csv.flatten pred = Ok (summary, cs, ds) ∧
     Csv.s_prediction_score summary
       = get (Json.prediction_score pred) (VStr "") ∧
     length cs = length (classes_of pred) ∧
     Forall2 (λ v row, Csv.c_score row = v)
       (take (length cs) (scores_of pred))
       (take (length (scores_of pred)) cs) ∧
     Csv.d_conf <$> ds
       = (λ d, get (Json.conf d) (VStr "")) <$> detections_of pred ∧
     csv_bbox <$> ds
       = (λ d, fit 4 (VStr "") (get (Json.bbox d) [])) <$> detections_of pred) ∧
  (∀ id db',
     Sqlite.insert_image_and_relations float_of_str pred db = (Ok id, db') →
     ∃ image rcs rds,
       Sqlite.images db' !! id = Some image ∧
       Sqlite.prediction_score image = get (Json.prediction_score pred) VNone ∧
       Sqlite.classifications db' = Sqlite.classifications db ++ rcs ∧
       Sqlite.detections db' = Sqlite.detections db ++ rds ∧
       Forall2 (λ v r, ∃ f, Sqlite.score r = Some f ∧
                            Sqlite.float float_of_str v = Ok f)
         (scores_of pred) (take (length (scores_of pred)) rcs) ∧
       Sqlite.conf <$> rds
         = (λ d, get (Json.conf d) VNone) <$> detections_of pred ∧
       sqlite_bbox <$> rds
         = (λ d, fit 4 VNone (get (Json.bbox d) [])) <$> detections_of pred) ∧
  (∀ v e,
     v ∈ scores_of pred →
     Sqlite.float float_of_str v = Raise e →
     ∃ e' db',
       Sqlite.insert_image_and_relations float_of_str pred db = (Raise e', db')).
Proof.
  split; [|split].
  - do 3 eexists. split; [apply flatten_eq|]. split; [done|].
    split; [unfold enumerate; by rewrite length_fmap, enumerate_from_length|].
    split; [apply csv_scores_passed|].
    rewrite <- !list_fmap_compose. unfold enumerate.
    split; apply fmap_enumerate_from; intros i d; simpl; [done|].
    unfold csv_bbox. simpl. by rewrite fit4_eq.
  - intros id db' Hrun.
    apply insert_image_and_relations_ok in Hrun as (_ & rcs & Hrcs & ->).
    exists (Sqlite.image_params pred), rcs,
      (sqlite_detection_row_of id <$> detections_of pred).
    simpl. rewrite lookup_insert_eq.
    split; [done|]. split; [done|]. split; [done|]. split; [done|].
    split.
    { apply for_each_Forall2 in Hrcs.
      eapply relational_scores_converted; [exact Hrcs|]. lia. }
    rewrite <- !list_fmap_compose.
    split; apply list_fmap_ext; intros i d _; simpl; [done|].
    unfold sqlite_bbox. simpl. by rewrite fit4_eq.
  - intros v e Hv Hbad.
    destruct (Sqlite.insert_image_and_relations float_of_str pred db)
      as [[id|e'] db'] eqn:Hrun; [|eauto].
    exfalso.
    apply insert_image_and_relations_ok in Hrun as (_ & rcs & Hrcs & _).
    apply run_prefix_for_each in Hrcs.
    assert (Forall (λ v, ∃ f, Sqlite.float float_of_str v = Ok f)
              (scores_of pred)) as Hall.
    { eapply classification_loop_ok; [|by rewrite Hrcs]. lia. }
    rewrite Forall_forall in Hall. destruct (Hall v Hv) as [f Hf]. congruence.
Qed.

(** The integer score [1] is stored as [float] of it, the score [null]
    makes the SQLite sink raise, and the CSV sink writes the row of either. *)
Lemma numeric_fields_passed_through_witness :
  (∃ db' image,
     Sqlite.insert_image_and_relations no_float_of_str int_score empty_db
       = (Ok 1%Z, db') ∧
     Sqlite.images db' !! 1%Z = Some image ∧
     Sqlite.prediction_score image
       = get (Json.prediction_score int_score) VNone) ∧
  (∃ e' db',
     Sqlite.insert_image_and_relations no_float_of_str null_score empty_db
       = (Raise e', db')) ∧
  (∃ summary cs ds,
     Csv.flatten null_score = Ok (summary, cs, ds) ∧
     length cs = length (classes_of null_score)).
Proof.
  split; [|split].
  - destruct (numeric_fields_passed_through no_float_of_str int_score empty_db)
      as (_ & Hstored & _).
    destruct (Hstored 1%Z
                (Sqlite.insert_image_and_relations no_float_of_str int_score
                   empty_db).2)
      as (image & rcs & rds & Himage & Hscore & _).
    { vm_compute. reflexivity. }
    do 2 eexists. split; [vm_compute; reflexivity|].
    split; [exact Himage|exact Hscore].
  - destruct (numeric_fields_passed_through no_float_of_str null_score empty_db)
      as (_ & _ & Hraise).
    apply (Hraise VNone TypeError).
    + vm_compute. left.
    + reflexivity.
  - destruct (numeric_fields_passed_through no_float_of_str null_score empty_db)
      as ((summary & cs & ds & Hflat & _ & Hlen & _) & _).
    exists summary, cs, ds. split; [exact Hflat|exact Hlen].
Defined.


(** * Further properties *)

(** ** The CSV sink, row by row *)

(** X1: the CSV sink never raises on a prediction; it writes one detection
    row per detection, numbered from one in input order, and the
    [num_detections] of the summary row is the number of these rows. *)
Theorem csv_detection_rows_complete (pred : Json.Prediction) :
  ∃ summary cs ds,
    Csv.flatten pred = Ok (summary, cs, ds) ∧
    length ds = length (detections_of pred) ∧
    Csv.num_detections summary = length ds ∧
    Csv.detection_index <$> ds = seq 1 (length (detections_of pred)).
Proof.
  do 3 eexists. split; [apply flatten_eq|].
  rewrite length_fmap. unfold enumerate. rewrite enumerate_from_length.
  split; [done|]. split; [done|].
  rewrite <- list_fmap_compose.
  generalize 0. induction (detections_of pred) as [|d l IH]; intros start;
    simpl; [done|].
  rewrite IH. f_equal. lia.
Qed.

(** X2: the [top_class] and [top_score] of the summary row are those of
    the classification row of rank 1, and [second_class], [second_score]
    those of the row of rank 2: the row holds the parse of the class and
    the same score. *)
Theorem csv_top_matches_first_rows (pred : Json.Prediction)
    (summary : Csv.SummaryRow) (cs : list Csv.ClassRow)
    (ds : list Csv.DetectionRow) :
  Csv.flatten pred = Ok (summary, cs, ds) →
  (∀ c, cs !! 0 = Some c →
     Csv.class_rank c = 1 ∧
     (∃ t, Csv.split_taxonomy (Csv.top_class summary) = Ok t ∧
           Csv.fields t = csv_fields c) ∧
     Csv.c_score c = Csv.top_score summary) ∧
  (∀ c, cs !! 1 = Some c →
     Csv.class_rank c = 2 ∧
     (∃ t, Csv.split_taxonomy (Csv.second_class summary) = Ok t ∧
           Csv.fields t = csv_fields c) ∧
     Csv.c_score c = Csv.second_score summary).
Proof.
  rewrite flatten_eq. intros [= <- <- <-].
  split; intros c Hc; rewrite list_lookup_fmap, enumerate_lookup in Hc.
  - destruct (classes_of pred !! 0) as [cls|] eqn:Hcls; [|done].
    simpl in Hc. injection Hc as <-. simpl. rewrite Hcls. simpl.
    split; [done|]. split; [|done].
    eexists. split; [apply split_taxonomy_eq|]. done.
  - destruct (classes_of pred !! 1) as [cls|] eqn:Hcls; [|done].
    simpl in Hc. injection Hc as <-. simpl. rewrite Hcls. simpl.
    split; [done|]. split; [|done].
    eexists. split; [apply split_taxonomy_eq|]. done.
Qed.

(** A prediction with two classes and one score. *)
Lemma csv_top_matches_first_rows_witness :
  ∃ summary c1 c2,
    Csv.flatten
      (sample_prediction None ["A;B"; "C"] [VFloat half] []) 
      = Ok (summary, [c1; c2], []) ∧
    Csv.c_score c1 = Csv.top_score summary ∧
    Csv.c_score c2 = Csv.second_score summary.
Proof.
  do 3 eexists. split; [vm_compute; reflexivity|].
  edestruct (csv_top_matches_first_rows
               (sample_prediction None ["A;B"; "C"] [VFloat half] []))
    as [H1 H2]; [vm_compute; reflexivity|].
  split.
  - by destruct (H1 _ eq_refl) as (_ & _ & ?).
  - by destruct (H2 _ eq_refl) as (_ & _ & ?).
Defined.

(** X3: the detection columns of the summary row are those of the first
    detection row; without detections they are all the empty string. *)
Theorem csv_summary_mirrors_first_detection (pred : Json.Prediction)
    (summary : Csv.SummaryRow) (cs : list Csv.ClassRow)
    (ds : list Csv.DetectionRow) :
  Csv.flatten pred = Ok (summary, cs, ds) →
  match ds !! 0 with
  | Some d =>
      Csv.detection_label summary = Csv.d_label d ∧
      Csv.detection_conf summary = Csv.d_conf d ∧
      [Csv.s_bbox_x summary; Csv.s_bbox_y summary; Csv.s_bbox_w summary;
       Csv.s_bbox_h summary] = csv_bbox d
  | None =>
      Csv.num_detections summary = 0 ∧
      Csv.detection_label summary = VStr "" ∧
      Csv.detection_conf summary = VStr "" ∧
      [Csv.s_bbox_x summary; Csv.s_bbox_y summary; Csv.s_bbox_w summary;
       Csv.s_bbox_h summary] = [VStr ""; VStr ""; VStr ""; VStr ""]
  end.
Proof.
  rewrite flatten_eq. intros [= <- <- <-].
  rewrite list_lookup_fmap, enumerate_lookup.
  unfold csv_summary_of.
  destruct (detections_of pred) as [|d rest]; simpl; done.
Qed.

(** A prediction with one detection, whose bbox has two entries. *)
Lemma csv_summary_mirrors_first_detection_witness :
  ∃ summary cs d,
    Csv.flatten one_class = Ok (summary, cs, [d]) ∧
    Csv.detection_label summary = Csv.d_label d ∧
    Csv.detection_conf summary = Csv.d_conf d ∧
    [Csv.s_bbox_x summary; Csv.s_bbox_y summary; Csv.s_bbox_w summary;
     Csv.s_bbox_h summary] = csv_bbox d.
Proof.
  do 3 eexists. split; [vm_compute; reflexivity|].
  apply (csv_summary_mirrors_first_detection one_class _ _ _ eq_refl).
Defined.

(** X4: every classification row and every detection row of a
    prediction repeats the [filepath], [country] and [model_version] of
    its summary row. *)
Theorem csv_rows_repeat_image_columns (pred : Json.Prediction)
    (summary : Csv.SummaryRow) (cs : list Csv.ClassRow)
    (ds : list Csv.DetectionRow) :
  Csv.flatten pred = Ok (summary, cs, ds) →
  Forall (λ c, Csv.c_filepath c = Csv.s_filepath summary ∧
               Csv.c_country c = Csv.s_country summary ∧
               Csv.c_model_version c = Csv.s_model_version summary) cs ∧
  Forall (λ d, Csv.d_filepath d = Csv.s_filepath summary ∧
               Csv.d_country d = Csv.s_country summary ∧
               Csv.d_model_version d = Csv.s_model_version summary) ds.
Proof.
  rewrite flatten_eq. intros [= <- <- <-].
  split; apply Forall_fmap, Forall_forall; done.
Qed.

(** Both child tables of a prediction with a class and a detection. *)
Lemma csv_rows_repeat_image_columns_witness :
  ∃ summary cs ds,
    Csv.flatten one_class = Ok (summary, cs, ds) ∧
    Forall (λ c, Csv.c_filepath c = Csv.s_filepath summary ∧
                 Csv.c_country c = Csv.s_country summary ∧
                 Csv.c_model_version c = Csv.s_model_version summary) cs.
Proof.
  do 3 eexists. split; [vm_compute; reflexivity|].
  apply (csv_rows_repeat_image_columns one_class _ _ _ eq_refl).
Defined.

(** ** The CSV sink, file by file *)

Lemma bind_Ok {A B} (x : A) (f : A → result B) : Ok x ≫= f = f x.
Proof. reflexivity. Qed.

Lemma write_all_eq (predictions : list Json.Prediction) (out : Csv.Files) :
  Csv.write_all predictions out =
  Ok {| Csv.summary_csv :=
          Csv.summary_csv out ++ (csv_summary_of <$> predictions);
        Csv.classifications_csv :=
          Csv.classifications_csv out ++ (predictions ≫= csv_class_rows_of);
        Csv.detections_csv :=
          Csv.detections_csv out ++ (predictions ≫= csv_detection_rows_of) |}.
Proof.
  revert out. induction predictions as [|pred rest IH]; intros out.
  - simpl. destruct out. simpl. by rewrite !app_nil_r.
  - cbn [Csv.write_all]. rewrite flatten_eq, bind_Ok, IH.
    cbn [Csv.summary_csv Csv.classifications_csv Csv.detections_csv].
    rewrite !bind_cons, fmap_cons, <- !app_assoc. done.
Qed.

Lemma csv_detection_rows_of_length (pred : Json.Prediction) :
  length (csv_detection_rows_of pred) = Csv.num_detections (csv_summary_of pred).
Proof.
  unfold csv_detection_rows_of, enumerate.
  by rewrite length_fmap, enumerate_from_length.
Qed.

Lemma csv_class_rows_of_length (pred : Json.Prediction) :
  length (csv_class_rows_of pred) ≤ Csv.num_classes (csv_summary_of pred).
Proof.
  unfold csv_class_rows_of, enumerate.
  rewrite length_fmap, enumerate_from_length. simpl. lia.
Qed.

(** X5: [main] of the CSV converter never raises. The summary file gets
    one row per prediction, in input order; the [num_detections] column
    adds up to the number of rows of the detections file, and the
    [num_classes] column to at least the number of rows of the
    classifications file. Without a "predictions" key the three files hold
    no row. *)
Theorem csv_main_files (predictions : option (list Json.Prediction)) :
  ∃ files,
    Csv.main predictions = Ok files ∧
    Csv.s_filepath <$> Csv.summary_csv files
      = (λ pred, get (Json.filepath pred) (VStr "")) <$> get predictions [] ∧
    length (Csv.detections_csv files)
      = sum_list (Csv.num_detections <$> Csv.summary_csv files) ∧
    length (Csv.classifications_csv files)
      ≤ sum_list (Csv.num_classes <$> Csv.summary_csv files) ∧
    (predictions = None →
       files = {| Csv.summary_csv := []; Csv.classifications_csv := [];
                  Csv.detections_csv := [] |}).
Proof.
  eexists. split; [apply write_all_eq|]. simpl.
  split; [by rewrite <- list_fmap_compose|].
  split; [|split].
  - induction (get predictions []) as [|pred rest IH]; [done|].
    rewrite bind_cons, length_app, IH, !fmap_cons. simpl.
    by rewrite csv_detection_rows_of_length.
  - induction (get predictions []) as [|pred rest IH]; [done|].
    rewrite bind_cons, length_app, !fmap_cons. simpl.
    pose proof (csv_class_rows_of_length pred). simpl in *. lia.
  - by intros ->.
Qed.

(** No "predictions" key in the document. *)
Lemma csv_main_files_witness :
  Csv.main None
  = Ok {| Csv.summary_csv := []; Csv.classifications_csv := [];
          Csv.detections_csv := [] |}.
Proof.
  destruct (csv_main_files None) as (files & Hmain & _ & _ & _ & Hnone).
  rewrite Hmain. f_equal. by apply Hnone.
Defined.

(** ** The taxonomy parsers: nothing lost, no delimiter left *)

Lemma split_no_sep (sep : ascii) (s : string) :
  Forall (λ seg, sep ∉ chars seg) (split sep s).
Proof.
  induction s as [|c s IH]; simpl.
  - repeat constructor. simpl. apply not_elem_of_nil.
  - case_decide as Hc.
    + constructor; [simpl; apply not_elem_of_nil|done].
    + destruct (split sep s) as [|seg rest].
      * repeat constructor. simpl. rewrite elem_of_cons.
        intros [->|H]; [done|by apply elem_of_nil in H].
      * inversion IH as [|? ? Hseg Hrest]; subst. constructor; [|done].
        simpl. rewrite elem_of_cons. intros [->|H]; done.
Qed.

Lemma fields_fit (s : string) (t : Csv.Taxonomy) :
  Csv.split_taxonomy s = Ok t → Csv.fields t = fit 8 "" (segments s).
Proof.
  rewrite split_taxonomy_eq. intros [= <-].
  apply list_eq. intros i. unfold Csv.fields. simpl.
  destruct (decide (i < 8)) as [Hi|Hi].
  - rewrite fit_lookup by done.
    do 8 (destruct i as [|i]; [done|]). exfalso. lia.
  - rewrite (lookup_ge_None_2 (fit _ _ _)) by (rewrite fit_length; lia).
    do 8 (destruct i as [|i]; [exfalso; lia|]). done.
Qed.

(** X6: a class string of at most eight segments is recovered from what
    [split_taxonomy] returns: joining the first fields, as many as there
    are segments, with [";"] gives the string back. *)
Theorem csv_taxonomy_round_trip (s : string) :
  length (segments s) ≤ 8 →
  ∃ t, Csv.split_taxonomy s = Ok t ∧
       join semicolon (take (length (segments s)) (Csv.fields t)) = s.
Proof.
  intros Hlen. eexists. split; [apply split_taxonomy_eq|].
  rewrite (fields_fit s _ (split_taxonomy_eq s)), fit_short by done.
  rewrite take_app_length. apply join_split.
Qed.

(** The string of C9, with eight segments. *)
Lemma csv_taxonomy_round_trip_witness :
  length (segments "A;B;C;D;E;F;G;H") ≤ 8 ∧
  ∃ t, Csv.split_taxonomy "A;B;C;D;E;F;G;H" = Ok t ∧
       join semicolon (take 8 (Csv.fields t)) = "A;B;C;D;E;F;G;H".
Proof.
  split; [vm_compute; lia|].
  apply (csv_taxonomy_round_trip "A;B;C;D;E;F;G;H"). vm_compute. lia.
Defined.

(** X7: a class string of at most seven segments is recovered from what
    [parse_tax_string] returns: joining the fields that are not [None]
    with [";"] gives the string back. *)
Theorem relational_taxonomy_round_trip (s : string) :
  length (segments s) ≤ 7 →
  join semicolon (omap id (Sqlite.parse_tax_string s)) = s.
Proof.
  intros Hlen.
  rewrite parse_tax_string_fit, fit_short by (by rewrite length_fmap).
  assert (∀ (l : list string) n,
            omap id ((Some <$> l) ++ replicate n None) = l) as Homap.
  { intros l n. induction l as [|x l IH]; simpl.
    - induction n as [|n IHn]; simpl; done.
    - f_equal. apply IH. }
  rewrite Homap. apply join_split.
Qed.

(** A string of two segments. *)
Lemma relational_taxonomy_round_trip_witness :
  length (segments "uuid;Mammalia") ≤ 7 ∧
  join semicolon (omap id (Sqlite.parse_tax_string "uuid;Mammalia"))
    = "uuid;Mammalia".
Proof.
  split; [vm_compute; lia|].
  apply (relational_taxonomy_round_trip "uuid;Mammalia"). vm_compute. lia.
Defined.

(** X8: no field either parser returns holds the delimiter [";"]. *)
Theorem taxonomy_fields_hold_no_delimiter (s : string) :
  (∃ t, Csv.split_taxonomy s = Ok t ∧
        Forall (λ field, semicolon ∉ chars field) (Csv.fields t)) ∧
  Forall (λ field, ∀ seg, field = Some seg → semicolon ∉ chars seg)
         (Sqlite.parse_tax_string s).
Proof.
  pose proof (split_no_sep semicolon s) as Hsegs. fold (segments s) in Hsegs.
  split.
  - eexists. split; [apply split_taxonomy_eq|].
    rewrite (fields_fit s _ (split_taxonomy_eq s)). unfold fit.
    apply Forall_take, Forall_app. split; [done|].
    apply Forall_replicate. simpl. apply not_elem_of_nil.
  - rewrite parse_tax_string_fit. unfold fit.
    apply Forall_take, Forall_app. split.
    + apply Forall_fmap. eapply Forall_impl; [exact Hsegs|].
      intros seg Hseg seg' [= <-]. done.
    + apply Forall_replicate. done.
Qed.

(** ** The SQLite sink, one prediction *)

Lemma stored_storable float_of_str (pred : Json.Prediction)
    (db db' : Sqlite.Db) (id : Z) :
  Sqlite.insert_image_and_relations float_of_str pred db = (Ok id, db') →
  storable float_of_str pred.
Proof.
  rewrite insert_image_and_relations_eq.
  destruct (insert_images_cases (Sqlite.image_params pred) db)
    as [(e & -> & _)|(-> & Hbinds & Hnull)]; [done|].
  destruct (run_prefix _ (seq _ _)) as [cs [e|]] eqn:Hcs; [done|].
  destruct (run_prefix _ (detections_of pred)) as [ds [e|]] eqn:Hds; [done|].
  intros _. split; [done|]. split; [done|]. split.
  - eapply classification_loop_ok; [|by rewrite Hcs]. lia.
  - by apply detection_checked_all in Hds as [_ Hall].
Qed.



(** X10: when the image row has been inserted and [float] rejects a
    score, the classification rows of the positions before that score have
    been inserted, no detection row has, and the exception is the one of
    [float]. *)
Theorem relational_rejected_score_leaves_partial_rows
    (float_of_str : string → option float64) (pred : Json.Prediction)
    (db db1 : Sqlite.Db) (id : Z) (good rest : list value) (bad : value)
    (e : exn) :
  Sqlite.insert_images (Sqlite.image_params pred) db = (Ok id, db1) →
  scores_of pred = good ++ bad :: rest →
  Forall (λ v, ∃ f, Sqlite.float float_of_str v = Ok f) good →
  Sqlite.float float_of_str bad = Raise e →
  ∃ cs,
    Sqlite.insert_image_and_relations float_of_str pred db
      = (Raise e, add_rows db1 cs []) ∧
    db1 = with_image db id (Sqlite.image_params pred) ∧
    length cs = length good.
Proof.
  intros Hins Hscores Hgood Hbad.
  rewrite insert_image_and_relations_eq.
  destruct (insert_images_cases (Sqlite.image_params pred) db)
    as [(e0 & Hno & _)|(Hyes & _)]; [congruence|].
  rewrite Hyes in Hins. injection Hins as <- <-. rewrite Hyes.
  set (n := length (classes_of pred) `max` length (scores_of pred)).
  set (k := length good).
  assert (k < n) as Hk.
  { subst n k. rewrite Hscores, length_app. simpl. lia. }
  assert (seq 0 n = seq 0 k ++ k :: seq (S k) (n - S k)) as ->.
  { replace n with (k + S (n - S k)) at 1 by lia.
    by rewrite seq_app. }
  set (body := Sqlite.classification_params _ _ _ _).
  destruct (run_prefix_stops body (seq 0 k) (seq (S k) (n - S k)) k e)
    as [He Hlen].
  - apply Forall_forall. intros i Hi. apply elem_of_seq in Hi.
    apply classification_params_ok. intros v Hv.
    rewrite Hscores, lookup_app_l in Hv by (subst k; lia).
    rewrite Forall_forall in Hgood. apply Hgood.
    by eapply list_elem_of_lookup_2.
  - subst body. rewrite classification_params_eq. unfold relational_score.
    rewrite Hscores, list_lookup_middle by done. simpl. by rewrite Hbad.
  - destruct (run_prefix body _) as [cs o]. simpl in *. subst o.
    exists cs. split; [done|]. split; [done|]. by rewrite Hlen, length_seq.
Qed.

(** The score [null]: the image is stored, no child row is. *)
Lemma relational_rejected_score_leaves_partial_rows_witness :
  ∃ cs,
    Sqlite.insert_image_and_relations no_float_of_str null_score empty_db
      = (Raise TypeError,
         add_rows (with_image empty_db 1%Z (Sqlite.image_params null_score))
           cs []) ∧
    length cs = 0.
Proof.
  destruct (relational_rejected_score_leaves_partial_rows no_float_of_str
              null_score empty_db
              (with_image empty_db 1%Z (Sqlite.image_params null_score)) 1%Z
              [] [] VNone TypeError)
    as (cs & Hrun & _ & Hlen).
  - vm_compute. reflexivity.
  - reflexivity.
  - constructor.
  - reflexivity.
  - exists cs. split; [exact Hrun|exact Hlen].
Defined.

Lemma max_rowid_le (m : gmap Z Sqlite.ImageRow) (b : Z) :
  (0 ≤ b)%Z → (∀ k r, m !! k = Some r → (k ≤ b)%Z) →
  (Sqlite.max_rowid m ≤ b)%Z.
Proof.
  intros Hb Hkeys. unfold Sqlite.max_rowid.
  assert (Forall (λ kr, (kr.1 ≤ b)%Z) (map_to_list m)) as Hall.
  { apply Forall_forall. intros [k r] Hkr.
    apply elem_of_map_to_list in Hkr. simpl. eauto. }
  induction Hall as [|[k r] l Hk _ IH]; [simpl; lia|].
  rewrite fmap_cons. simpl in *. lia.
Qed.

Lemma next_rowid_with_image (db : Sqlite.Db) (row : Sqlite.ImageRow)
    (cs : list Sqlite.ClassificationRow) (ds : list Sqlite.DetectionRow) :
  Sqlite.next_rowid
    (add_rows (with_image db (Sqlite.next_rowid db) row) cs ds)
  = (Sqlite.next_rowid db + 1)%Z.
Proof.
  set (id := Sqlite.next_rowid db).
  unfold Sqlite.next_rowid at 1. simpl.
  assert (0 < id)%Z as Hpos.
  { subst id. unfold Sqlite.next_rowid.
    assert (0 ≤ Sqlite.max_rowid (Sqlite.images db))%Z.
    { unfold Sqlite.max_rowid.
      induction (map_to_list (Sqlite.images db)) as [|kr l IH]; [simpl; lia|].
      rewrite fmap_cons. simpl. lia. }
    lia. }
  assert (Sqlite.max_rowid (<[id := row]> (Sqlite.images db)) = id) as ->.
  { apply Z.le_antisymm.
    - apply max_rowid_le; [lia|]. intros k r Hk.
      destruct (decide (k = id)) as [->|Hne]; [done|].
      rewrite lookup_insert_ne in Hk by done.
      apply max_rowid_ge in Hk. subst id. unfold Sqlite.next_rowid. lia.
    - eapply max_rowid_ge. apply lookup_insert_eq. }
  lia.
Qed.

(** X11: whatever [insert_image_and_relations] does, it only adds: every
    image stored before is still there unchanged, the rows of the two
    child tables are still there in the same order before the new ones,
    and the AUTOINCREMENT counter does not go back. *)
Theorem relational_store_only_adds
    (float_of_str : string → option float64) (pred : Json.Prediction)
    (db db' : Sqlite.Db) (r : result Z) :
  Sqlite.insert_image_and_relations float_of_str pred db = (r, db') →
  Sqlite.images db ⊆ Sqlite.images db' ∧
  Sqlite.classifications db `prefix_of` Sqlite.classifications db' ∧
  Sqlite.detections db `prefix_of` Sqlite.detections db' ∧
  (Sqlite.images_seq db ≤ Sqlite.images_seq db')%Z.
Proof.
  rewrite insert_image_and_relations_eq.
  destruct (insert_images_cases (Sqlite.image_params pred) db)
    as [(e & -> & _)|(-> & _)].
  { intros [= <- <-]. done. }
  pose proof (next_rowid_fresh db) as Hfresh.
  assert (Sqlite.images_seq db ≤ Sqlite.next_rowid db)%Z as Hseq.
  { unfold Sqlite.next_rowid. lia. }
  destruct (run_prefix _ (seq _ _)) as [cs [e|]];
    [|destruct (run_prefix _ (detections_of pred)) as [ds o]];
    intros [= <- <-]; simpl.
  all: split; [by apply insert_subseteq|].
  all: split; [by apply prefix_app_r|].
  all: split; [by apply prefix_app_r|done].
Qed.

(** A prediction stored in an empty database. *)
Lemma relational_store_only_adds_witness :
  ∃ db',
    Sqlite.insert_image_and_relations no_float_of_str one_class empty_db
      = (Ok 1%Z, db') ∧
    Sqlite.images empty_db ⊆ Sqlite.images db'.
Proof.
  eexists. split; [vm_compute; reflexivity|].
  eapply (relational_store_only_adds no_float_of_str one_class empty_db).
  vm_compute. reflexivity.
Defined.

(** X12: the identifier returned is larger than every identifier in
    [images] and than the AUTOINCREMENT counter, and two predictions
    stored one after the other get consecutive identifiers. *)
Theorem relational_ids_consecutive
    (float_of_str : string → option float64) (pred1 pred2 : Json.Prediction)
    (db db1 db2 : Sqlite.Db) (id1 id2 : Z) :
  Sqlite.insert_image_and_relations float_of_str pred1 db = (Ok id1, db1) →
  Sqlite.insert_image_and_relations float_of_str pred2 db1 = (Ok id2, db2) →
  (Sqlite.images_seq db < id1)%Z ∧
  (∀ k, is_Some (Sqlite.images db !! k) → (k < id1)%Z) ∧
  id2 = (id1 + 1)%Z.
Proof.
  intros H1 H2.
  apply insert_image_and_relations_ok in H1 as (-> & cs1 & _ & ->).
  apply insert_image_and_relations_ok in H2 as (-> & _).
  rewrite next_rowid_with_image. split; [|split; [|done]].
  - unfold Sqlite.next_rowid. lia.
  - intros k [r Hk]. apply max_rowid_ge in Hk.
    unfold Sqlite.next_rowid. lia.
Qed.

(** Two predictions stored in an empty database get 1 and 2. *)
Lemma relational_ids_consecutive_witness :
  ∃ db1 db2,
    Sqlite.insert_image_and_relations no_float_of_str one_class empty_db
      = (Ok 1%Z, db1) ∧
    Sqlite.insert_image_and_relations no_float_of_str scores_only db1
      = (Ok 2%Z, db2) ∧
    2%Z = (1 + 1)%Z.
Proof.
  do 2 eexists. split; [vm_compute; reflexivity|].
  split; [vm_compute; reflexivity|].
  eapply (relational_ids_consecutive no_float_of_str one_class scores_only
            empty_db); vm_compute; reflexivity.
Defined.

(** X13: a prediction stored without an exception adds one row to
    [images], one row to [classifications] per position of the longer of
    [classes] and [scores], and one row to [detections] per detection. *)
Theorem relational_row_counts
    (float_of_str : string → option float64) (pred : Json.Prediction)
    (db db' : Sqlite.Db) (id : Z) :
  Sqlite.insert_image_and_relations float_of_str pred db = (Ok id, db') →
  size (Sqlite.images db') = S (size (Sqlite.images db)) ∧
  length (Sqlite.classifications db')
    = length (Sqlite.classifications db)
      + length (classes_of pred) `max` length (scores_of pred) ∧
  length (Sqlite.detections db')
    = length (Sqlite.detections db) + length (detections_of pred).
Proof.
  intros Hrun.
  apply insert_image_and_relations_ok in Hrun as (-> & cs & Hcs & ->).
  apply for_each_Forall2, Forall2_length in Hcs. rewrite length_seq in Hcs.
  simpl. rewrite !length_app, length_fmap, <- Hcs.
  split; [|done].
  apply map_size_insert_None, next_rowid_fresh.
Qed.

(** Two scores without a class and no detection: 1, 2 and 0 rows. *)
Lemma relational_row_counts_witness :
  ∃ db',
    Sqlite.insert_image_and_relations no_float_of_str scores_only empty_db
      = (Ok 1%Z, db') ∧
    size (Sqlite.images db') = 1 ∧
    length (Sqlite.classifications db') = 2 ∧
    length (Sqlite.detections db') = 0.
Proof.
  eexists. split; [vm_compute; reflexivity|].
  eapply (relational_row_counts no_float_of_str scores_only empty_db).
  vm_compute. reflexivity.
Defined.

(** ** The SQLite converter, file by file *)

Section Files.

Variable float_of_str : string → option float64.

Lemma insert_preserves_integrity (pred : Json.Prediction)
    (db db' : Sqlite.Db) (r : result Z) :
  Sqlite.insert_image_and_relations float_of_str pred db = (r, db') →
  referential_integrity db → referential_integrity db'.
Proof.
  rewrite insert_image_and_relations_eq.
  destruct (insert_images_cases (Sqlite.image_params pred) db)
    as [(e & -> & _)|(-> & _)]; [by intros [= <- <-]|].
  pose proof (run_prefix_Forall
                (Sqlite.classification_params float_of_str
                   (Sqlite.next_rowid db) (classes_of pred) (scores_of pred))
                (λ c, Sqlite.c_image_id c = Sqlite.next_rowid db)
                (seq 0 (length (classes_of pred) `max` length (scores_of pred))))
    as Hcs.
  pose proof (run_prefix_Forall (detection_checked (Sqlite.next_rowid db))
                (λ d, Sqlite.d_image_id d = Sqlite.next_rowid db)
                (detections_of pred)) as Hds.
  destruct (run_prefix _ (seq _ _)) as [cs o]. simpl in Hcs.
  destruct (run_prefix _ (detections_of pred)) as [ds o']. simpl in Hds.
  assert (Forall (λ c, Sqlite.c_image_id c = Sqlite.next_rowid db) cs) as Hcs'.
  { apply Hcs. intros i c Hc.
    by apply classification_params_image_id in Hc as [-> _]. }
  assert (Forall (λ d, Sqlite.d_image_id d = Sqlite.next_rowid db) ds) as Hds'.
  { apply Hds. intros d q Hq. by rewrite (detection_checked_ok _ _ _ Hq). }
  pose proof (next_rowid_fresh db) as Hfresh.
  destruct o as [e|]; intros [= <- <-] Hri.
  - apply referential_integrity_extend; auto.
  - apply referential_integrity_extend; auto.
Qed.

Lemma insert_all_ok (preds : list Json.Prediction) (k n : nat)
    (db db' : Sqlite.Db) :
  Sqlite.insert_all float_of_str preds k db = (Ok n, db') →
  Forall (storable float_of_str) preds ∧
  n = k + length preds ∧
  size (Sqlite.images db') = size (Sqlite.images db) + length preds.
Proof.
  revert k db. induction preds as [|pred rest IH]; intros k db; simpl.
  - unfold mret, Sqlite.sql_ret. intros [= <- <-]. rewrite !Nat.add_0_r. done.
  - unfold mbind, Sqlite.sql_bind.
    destruct (Sqlite.insert_image_and_relations float_of_str pred db)
      as [[id|e] db1] eqn:Hrun; [|done].
    intros Hrest. destruct (IH _ _ Hrest) as (Hall & -> & Hsize).
    split; [constructor; [by eapply stored_storable|done]|].
    split; [lia|]. rewrite Hsize.
    apply insert_image_and_relations_ok in Hrun as (-> & cs & _ & ->). simpl.
    rewrite map_size_insert_None by apply next_rowid_fresh. lia.
Qed.

Lemma insert_all_raises (preds : list Json.Prediction) (k : nat)
    (db : Sqlite.Db) :
  ¬ Forall (storable float_of_str) preds →
  ∃ e db', Sqlite.insert_all float_of_str preds k db = (Raise e, db').
Proof.
  intros Hnot.
  destruct (Sqlite.insert_all float_of_str preds k db) as [[n|e] db'] eqn:Hrun;
    [|eauto].
  exfalso. apply Hnot. by apply insert_all_ok in Hrun as [? _].
Qed.

Lemma insert_all_integrity (preds : list Json.Prediction) (k : nat)
    (db db' : Sqlite.Db) (r : result nat) :
  Sqlite.insert_all float_of_str preds k db = (r, db') →
  referential_integrity db → referential_integrity db'.
Proof.
  revert k db. induction preds as [|pred rest IH]; intros k db; simpl.
  - by intros [= <- <-].
  - unfold mbind, Sqlite.sql_bind.
    destruct (Sqlite.insert_image_and_relations float_of_str pred db)
      as [[id|e] db1] eqn:Hrun.
    + intros Hrest Hri. eapply IH; [exact Hrest|].
      by eapply insert_preserves_integrity.
    + intros [= <- <-] Hri. by eapply insert_preserves_integrity.
Qed.

(** X14: when [process_file] returns, the file holds a JSON document,
    each of its predictions met what [insert_image_and_relations] needs,
    the number returned is the number of predictions, [images] has that
    many rows more, and nothing is left pending. *)
Theorem process_file_counts (conn conn' : Sqlite.Conn)
    (data : Sqlite.content) (n : nat) :
  Sqlite.process_file float_of_str conn data = (Ok n, conn') →
  ∃ predictions,
    data = Sqlite.Document predictions ∧
    Forall (storable float_of_str) (get predictions []) ∧
    n = length (get predictions []) ∧
    Sqlite.committed conn' = Sqlite.working conn' ∧
    size (Sqlite.images (Sqlite.committed conn'))
      = size (Sqlite.images (Sqlite.working conn)) + n ∧
    (Sqlite.insert_all float_of_str (get predictions []) 0
       (Sqlite.working conn)).2 = Sqlite.working conn'.
Proof.
  destruct data as [|predictions]; simpl; [done|].
  destruct (Sqlite.insert_all _ _ _ _) as [[m|e] db1] eqn:Hrun; [|done].
  intros [= <- <-]. exists predictions. simpl.
  rewrite Hrun. simpl.
  apply insert_all_ok in Hrun as (Hall & -> & Hsize).
  rewrite Hsize. repeat split; done.
Qed.

Lemma process_file_not_loadable (conn : Sqlite.Conn) (data : Sqlite.content) :
  ¬ loadable float_of_str (Some data) →
  ∃ e conn',
    Sqlite.process_file float_of_str conn data = (Raise e, conn') ∧
    Sqlite.committed conn' = Sqlite.committed conn.
Proof.
  destruct data as [|predictions]; simpl; [eauto|]. intros Hnot.
  destruct (insert_all_raises _ 0 (Sqlite.working conn) Hnot) as (e & db' & ->).
  eauto.
Qed.

Lemma process_files_app (good rest : list (option Sqlite.content))
    (conn conn1 : Sqlite.Conn) (total total1 : nat) :
  Sqlite.process_files float_of_str conn good total = (Ok total1, conn1) →
  Sqlite.process_files float_of_str conn (good ++ rest) total
  = Sqlite.process_files float_of_str conn1 rest total1.
Proof.
  revert conn total. induction good as [|file good IH]; intros conn total; simpl.
  - by intros [= <- <-].
  - destruct file as [data|]; [|apply IH].
    destruct (Sqlite.process_file float_of_str conn data) as [[n|e] conn2];
      [apply IH|done].
Qed.

Lemma process_files_integrity (files : list (option Sqlite.content))
    (conn conn' : Sqlite.Conn) (total : nat) (r : result nat) :
  Sqlite.process_files float_of_str conn files total = (r, conn') →
  referential_integrity (Sqlite.working conn) →
  referential_integrity (Sqlite.committed conn) →
  referential_integrity (Sqlite.committed conn').
Proof.
  revert conn total. induction files as [|file rest IH]; intros conn total; simpl.
  - by intros [= <- <-].
  - destruct file as [data|]; [|apply IH].
    destruct data as [|predictions]; simpl; [by intros [= <- <-]|].
    destruct (Sqlite.insert_all _ _ _ _) as [[n|e] db1] eqn:Hrun.
    + intros Hrest Hw Hc.
      pose proof (insert_all_integrity _ _ _ _ _ Hrun Hw) as Hdb1.
      eapply IH; [exact Hrest|done|done].
    + by intros [= <- <-].
Qed.

Lemma process_files_ok (files : list (option Sqlite.content))
    (conn conn' : Sqlite.Conn) (total total' : nat) :
  Sqlite.process_files float_of_str conn files total = (Ok total', conn') →
  Sqlite.committed conn = Sqlite.working conn →
  Forall (loadable float_of_str) files ∧
  total' = total + sum_list (predictions_in <$> files) ∧
  Sqlite.committed conn' = Sqlite.working conn' ∧
  size (Sqlite.images (Sqlite.working conn'))
    = size (Sqlite.images (Sqlite.working conn))
      + sum_list (predictions_in <$> files).
Proof.
  revert conn total. induction files as [|file rest IH]; intros conn total.
  - simpl. intros [= <- <-] Hconn. rewrite !Nat.add_0_r. done.
  - destruct file as [[|predictions]|]; cbn [Sqlite.process_files].
    + done.
    + cbn [Sqlite.process_file].
      destruct (Sqlite.insert_all _ _ _ _) as [[m|e] db1] eqn:Hrun; [|done].
      intros Hrest _.
      apply insert_all_ok in Hrun as (Hall & -> & Hsize1).
      destruct (IH _ _ Hrest eq_refl) as (Hrest' & Heq & Hconn' & Hsize').
      rewrite fmap_cons. cbn [sum_list sum_list_with predictions_in id].
      cbn [Sqlite.working] in Hsize'.
      split; [by constructor|]. split; [lia|]. split; [done|]. lia.
    + intros Hrest Hconn.
      destruct (IH _ _ Hrest Hconn) as (Hall & -> & Hconn' & Hsize').
      rewrite fmap_cons. simpl. by split; [constructor|].
Qed.

(** X15: when [main] ends normally, every path of the command line was
    either no file or a document whose predictions all met what
    [insert_image_and_relations] needs, the total is the number of
    predictions of the documents, and the table [images] on disk has that
    many rows more. *)
Theorem relational_main_total (files : list (option Sqlite.content))
    (disk disk' : Sqlite.Db) (total : nat) :
  Sqlite.main float_of_str files disk = (Sqlite.Finished total, disk') →
  0 < length files ∧
  Forall (loadable float_of_str) files ∧
  total = sum_list (predictions_in <$> files) ∧
  size (Sqlite.images disk') = size (Sqlite.images disk) + total.
Proof.
  unfold Sqlite.main. case_decide as Hlen; [done|].
  destruct (Sqlite.process_files _ _ _ _) as [[t|e] conn'] eqn:Hrun;
    simpl; [|done].
  intros [= <- <-].
  destruct (process_files_ok _ _ _ _ _ Hrun eq_refl)
    as (Hall & -> & Hconn' & Hsize).
  split; [lia|]. split; [done|]. split; [done|].
  by rewrite Hconn', Hsize.
Qed.

(** X16: when the paths before it have been processed, a path that holds
    invalid JSON, or a prediction that does not meet what
    [insert_image_and_relations] needs, ends [main] with an uncaught
    exception: the paths after it are not read, and the database on disk is
    the one the paths before it have left, with no row of the failing
    file. *)
Theorem relational_main_stops_at_bad_file
    (good rest : list (option Sqlite.content)) (bad : option Sqlite.content)
    (disk : Sqlite.Db) (total : nat) (conn : Sqlite.Conn) :
  Sqlite.process_files float_of_str (fresh_conn disk) good 0
    = (Ok total, conn) →
  ¬ loadable float_of_str bad →
  ∃ e,
    Sqlite.main float_of_str (good ++ bad :: rest) disk
      = (Sqlite.Uncaught e, Sqlite.committed conn).
Proof.
  intros Hrun Hbad.
  destruct bad as [data|]; [|done].
  destruct (process_file_not_loadable conn data Hbad)
    as (e & conn' & Hfile & Hcommitted).
  exists e.
  unfold Sqlite.main. case_decide as Hlen.
  { rewrite length_app in Hlen. simpl in Hlen. lia. }
  fold (fresh_conn disk).
  rewrite (process_files_app _ _ _ _ _ _ Hrun).
  cbn [Sqlite.process_files]. rewrite Hfile. by rewrite Hcommitted.
Qed.

(** X17: paths at which there is no file are skipped: when the command
    line holds only such paths, [main] ends normally with a total of 0 and
    the database as it was; without any path it exits with status 1. *)
Theorem relational_main_skips_missing_files
    (files : list (option Sqlite.content)) (disk : Sqlite.Db) :
  Forall (λ file, file = None) files →
  Sqlite.main float_of_str files disk
  = (if decide (files = []) then Sqlite.Exit 1 else Sqlite.Finished 0, disk).
Proof.
  intros Hall. unfold Sqlite.main.
  destruct files as [|file rest]; [done|].
  rewrite decide_False by (simpl; lia). rewrite decide_False by done.
  assert (∀ conn total,
            Sqlite.process_files float_of_str conn (file :: rest) total
            = (Ok total, conn)) as ->; [|done].
  induction Hall as [|f l -> _ IH]; intros conn total; simpl; [done|apply IH].
Qed.

(** X18: whichever way [main] ends, a database whose child rows all point
    at rows of [images] is on disk as such a database again. *)
Theorem relational_main_keeps_integrity
    (files : list (option Sqlite.content)) (disk : Sqlite.Db) :
  referential_integrity disk →
  referential_integrity (Sqlite.main float_of_str files disk).2.
Proof.
  intros Hri. unfold Sqlite.main. case_decide; [done|].
  destruct (Sqlite.process_files _ _ _ _) as [[total|e] conn] eqn:Hrun; simpl.
  all: by eapply (process_files_integrity _ _ _ _ _ Hrun).
Qed.

End Files.


(** Storing a document of two predictions, one path without a file. *)
Lemma relational_main_total_witness :
  ∃ disk',
    Sqlite.main no_float_of_str
      [None; Some (Sqlite.Document (Some [one_class; scores_only]))] empty_db
      = (Sqlite.Finished 2, disk') ∧
    size (Sqlite.images disk') = size (Sqlite.images empty_db) + 2.
Proof.
  set (run := Sqlite.main no_float_of_str
                [None; Some (Sqlite.Document (Some [one_class; scores_only]))]
                empty_db).
  assert (run = (Sqlite.Finished 2, run.2)) as Hrun
    by (vm_compute; reflexivity).
  exists run.2. split; [exact Hrun|].
  destruct (relational_main_total no_float_of_str _ empty_db run.2 2 Hrun)
    as (_ & _ & _ & Hsize).
  exact Hsize.
Defined.

(** A document without "filepath" between two that can be stored. *)
Lemma relational_main_stops_at_bad_file_witness :
  ∃ e conn,
    Sqlite.process_files no_float_of_str (fresh_conn empty_db)
      [Some (Sqlite.Document (Some [one_class]))] 0 = (Ok 1, conn) ∧
    Sqlite.main no_float_of_str
      ([Some (Sqlite.Document (Some [one_class]))]
       ++ Some (Sqlite.Document (Some [no_filepath]))
       :: [Some (Sqlite.Document (Some [scores_only]))]) empty_db
      = (Sqlite.Uncaught e, Sqlite.committed conn).
Proof.
  set (run := Sqlite.process_files no_float_of_str (fresh_conn empty_db)
                [Some (Sqlite.Document (Some [one_class]))] 0).
  assert (run = (Ok 1, run.2)) as Hrun by (vm_compute; reflexivity).
  destruct (relational_main_stops_at_bad_file no_float_of_str
              [Some (Sqlite.Document (Some [one_class]))]
              [Some (Sqlite.Document (Some [scores_only]))]
              (Some (Sqlite.Document (Some [no_filepath])))
              empty_db 1 run.2 Hrun) as [e Hmain].
  - simpl. intros Hall. inversion Hall as [|? ? (Hfp & _) _]; subst.
    vm_compute in Hfp. discriminate.
  - exists e, run.2. split; [exact Hrun|exact Hmain].
Defined.

(** Two paths, no file at either. *)
Lemma relational_main_skips_missing_files_witness :
  Sqlite.main no_float_of_str [None; None] empty_db
  = (Sqlite.Finished 0, empty_db).
Proof.
  apply (relational_main_skips_missing_files no_float_of_str [None; None]).
  repeat constructor.
Defined.

(** The empty database, and one document. *)
Lemma relational_main_keeps_integrity_witness :
  referential_integrity empty_db ∧
  referential_integrity
    (Sqlite.main no_float_of_str
       [Some (Sqlite.Document (Some [one_class]))] empty_db).2.
Proof.
  assert (referential_integrity empty_db) as Hri by (split; constructor).
  split; [exact Hri|].
  by apply (relational_main_keeps_integrity no_float_of_str).
Defined.

(** ** The mosaic page *)

(** X19: the column [detect_column] picks is always one of the field
    names: the preferred one when it is not empty and among them, the
    first one otherwise; it picks none only when there is no field name. *)
Theorem detect_column_picks_a_field (fieldnames : list string)
    (preferred : string) :
  (Mosaic.detect_column fieldnames preferred = None ↔ fieldnames = []) ∧
  (∀ col, Mosaic.detect_column fieldnames preferred = Some col →
          col ∈ fieldnames) ∧
  (preferred ≠ "" → preferred ∈ fieldnames →
   Mosaic.detect_column fieldnames preferred = Some preferred) ∧
  (preferred = "" ∨ preferred ∉ fieldnames →
   Mosaic.detect_column fieldnames preferred = head fieldnames).
Proof.
  unfold Mosaic.detect_column. split; [|split; [|split]].
  - case_decide as H.
    + split; [done|]. intros ->. destruct H as [_ H]. by apply elem_of_nil in H.
    + by destruct fieldnames.
  - intros col. case_decide as H.
    + intros [= <-]. by destruct H.
    + destruct fieldnames; [done|]. intros [= <-]. apply elem_of_cons. by left.
  - intros Hne Hin. by rewrite decide_True.
  - intros Hor. rewrite decide_False; [done|]. intros [Hne Hin].
    by destruct Hor.
Qed.

(** The default column among the field names, and not among them. *)
Lemma detect_column_picks_a_field_witness :
  Mosaic.detect_column ["x"; "filepath"] "filepath" = Some "filepath" ∧
  Mosaic.detect_column ["x"; "y"] "filepath" = Some "x".
Proof.
  split.
  - apply (detect_column_picks_a_field ["x"; "filepath"] "filepath").
    + discriminate.
    + apply elem_of_cons. right. apply elem_of_cons. by left.
  - apply (detect_column_picks_a_field ["x"; "y"] "filepath").
    right. intros H.
    apply elem_of_cons in H as [H|H]; [discriminate|].
    apply elem_of_cons in H as [H|H]; [discriminate|].
    by apply elem_of_nil in H.
Defined.

Lemma chars_app (s1 s2 : string) : chars (s1 +:+ s2) = chars s1 ++ chars s2.
Proof. induction s1 as [|a s1 IH]; simpl; [done|]. by rewrite IH. Qed.

Lemma replace_Forall (P : ascii → Prop) (c : ascii) (new s : string) :
  Forall P (chars new) →
  Forall (λ a, a ≠ c → P a) (chars s) →
  Forall P (chars (Mosaic.replace c new s)).
Proof.
  intros Hnew. induction s as [|a s IH]; simpl; [done|].
  intros Hs. inversion Hs as [|? ? Ha Hs']; subst.
  case_decide as Hc.
  - rewrite chars_app. apply Forall_app. auto.
  - simpl. constructor; auto.
Qed.

Lemma escape_chars (s : string) :
  Forall (λ c, c ≠ "<"%char ∧ c ≠ ">"%char ∧ c ≠ Mosaic.dquote ∧
               c ≠ "'"%char)
    (chars (Mosaic.escape s true)).
Proof.
  unfold Mosaic.escape.
  set (s1 := Mosaic.replace "&" "&amp;" s).
  assert (Forall (λ c, c ≠ "<"%char) (chars (Mosaic.replace "<" "&lt;" s1)))
    as H2.
  { apply replace_Forall; [by repeat constructor|].
    apply Forall_forall. done. }
  set (s2 := Mosaic.replace "<" "&lt;" s1) in *.
  assert (Forall (λ c, c ≠ "<"%char ∧ c ≠ ">"%char)
            (chars (Mosaic.replace ">" "&gt;" s2))) as H3.
  { apply replace_Forall; [by repeat constructor|].
    eapply Forall_impl; [exact H2|]. done. }
  set (s3 := Mosaic.replace ">" "&gt;" s2) in *.
  assert (Forall (λ c, c ≠ "<"%char ∧ c ≠ ">"%char ∧ c ≠ Mosaic.dquote)
            (chars (Mosaic.replace Mosaic.dquote "&quot;" s3))) as H4.
  { apply replace_Forall; [by repeat constructor|].
    eapply Forall_impl; [exact H3|]. intros c [? ?] ?. done. }
  set (s4 := Mosaic.replace Mosaic.dquote "&quot;" s3) in *.
  apply replace_Forall; [by repeat constructor|].
  eapply Forall_impl; [exact H4|]. intros c (? & ? & ?) ?. done.
Qed.

(** X20: [html.escape] with [quote=True], as the page applies it to
    every path and caption, leaves none of [<], [>], the double quote and
    the single quote in its result. *)
Theorem escape_leaves_no_markup (s : string) :
  Forall (λ c, ¬ markup c) (chars (Mosaic.escape s true)).
Proof.
  eapply Forall_impl; [apply escape_chars|].
  unfold markup. intros c (Hlt & Hgt & Hdq & Hsq) Hc.
  destruct Hc as [?|[?|[?|?]]]; done.
Qed.

Lemma occurrences_app (c : ascii) (s1 s2 : string) :
  occurrences c (s1 +:+ s2) = occurrences c s1 + occurrences c s2.
Proof.
  unfold occurrences. by rewrite chars_app, filter_app, length_app.
Qed.

Lemma occurrences_none (c : ascii) (s : string) :
  Forall (λ a, a ≠ c) (chars s) → occurrences c s = 0.
Proof.
  unfold occurrences. intros Hall.
  induction Hall as [|a l Ha _ IH]; [done|].
  by rewrite filter_cons_False.
Qed.

Lemma occurrences_escape (c : ascii) (s : string) :
  markup c → occurrences c (Mosaic.escape s true) = 0.
Proof.
  intros Hc. apply occurrences_none.
  eapply Forall_impl; [apply escape_chars|].
  unfold markup in Hc. intros a (Hlt & Hgt & Hdq & Hsq) ->.
  destruct Hc as [?|[?|[?|?]]]; done.
Qed.

(** X21: whatever the path and its name are, each line of its card holds
    exactly the double quotes, the [<] and the [>] of the template: a path
    cannot close an attribute value or a tag, nor open one. *)
Theorem card_markup_is_the_templates (name : string → string)
    (lightbox : bool) (path : string) :
  occurrences Mosaic.dquote <$> Mosaic.card name lightbox path
    = (if lightbox then [6; 6; 2; 0] else [2; 6; 2; 0]) ∧
  occurrences "<" <$> Mosaic.card name lightbox path = [1; 1; 2; 1] ∧
  occurrences ">" <$> Mosaic.card name lightbox path = [1; 1; 2; 1].
Proof.
  assert (markup Mosaic.dquote ∧ markup "<" ∧ markup ">") as (Hq & Hlt & Hgt).
  { unfold markup. auto. }
  unfold Mosaic.card, Mosaic.img_line, Mosaic.caption_line.
  destruct lightbox; cbn [fmap list_fmap].
  all: rewrite !occurrences_app, !occurrences_escape by done.
  all: repeat split; reflexivity.
Qed.

(** A document of two predictions against an empty database. *)
Lemma process_file_counts_witness :
  ∃ conn',
    Sqlite.process_file no_float_of_str (fresh_conn empty_db)
      (Sqlite.Document (Some [one_class; scores_only])) = (Ok 2, conn') ∧
    Sqlite.committed conn' = Sqlite.working conn'.
Proof.
  set (run := Sqlite.process_file no_float_of_str (fresh_conn empty_db)
                (Sqlite.Document (Some [one_class; scores_only]))).
  assert (run = (Ok 2, run.2)) as Hrun by (vm_compute; reflexivity).
  exists run.2. split; [exact Hrun|].
  destruct (process_file_counts no_float_of_str (fresh_conn empty_db)
              run.2 (Sqlite.Document (Some [one_class; scores_only])) 2 Hrun)
    as (ps & _ & _ & _ & Hc & _).
  exact Hc.
Defined.

(** ** More on the rows of the SQLite sink *)

(** X22: at a position without a class, or with the empty class string,
    the SQLite sink stores [None] in all seven taxonomy columns, while
    [split_taxonomy] turns the empty string into eight empty fields. *)
Theorem relational_empty_class_is_null
    (float_of_str : string → option float64) (image_id : Z)
    (classes : list string) (scores : list value) (i : nat)
    (r : Sqlite.ClassificationRow) :
  classes !! i = None ∨ classes !! i = Some "" →
  Sqlite.classification_params float_of_str image_id classes scores i = Ok r →
  sqlite_fields r = replicate 7 None ∧
  ∃ t, Csv.split_taxonomy "" = Ok t ∧ Csv.fields t = replicate 8 "".
Proof.
  intros Hcls. rewrite classification_params_eq.
  destruct (relational_score float_of_str scores i) as [sc|]; simpl; [|done].
  intros [= <-]. split; [|by eexists].
  by destruct Hcls as [-> | ->].
Qed.

(** A score at a position that has no class. *)
Lemma relational_empty_class_is_null_witness :
  ∃ r,
    Sqlite.classification_params no_float_of_str 1 [] [VFloat half] 0 = Ok r ∧
    sqlite_fields r = replicate 7 None.
Proof.
  eexists. split; [reflexivity|].
  eapply (relational_empty_class_is_null no_float_of_str 1 [] [VFloat half] 0).
  - by left.
  - reflexivity.
Defined.

(** X23: [insert_image_and_relations] raises the constraint violation
    of the engine only for the "filepath": the key is absent, or its value
    is [null] or a NaN, which the engine takes for NULL; and it has then
    stored nothing. *)
Theorem relational_integrity_error_is_null_filepath
    (float_of_str : string → option float64) (pred : Json.Prediction)
    (db db' : Sqlite.Db) :
  Sqlite.insert_image_and_relations float_of_str pred db
    = (Raise IntegrityError, db') →
  (Json.filepath pred = None ∨ Json.filepath pred = Some VNone ∨
   Json.filepath pred = Some (VFloat S754_nan)) ∧
  db' = db.
Proof.
  rewrite insert_image_and_relations_eq.
  destruct (insert_images_cases (Sqlite.image_params pred) db)
    as [(e & -> & [He|(_ & Hnull & ->)])|(-> & _)].
  - intros [= -> <-]. exfalso. unfold image_binds in He.
    destruct (for_each_bind_param_cases
                [Sqlite.filepath (Sqlite.image_params pred);
                 Sqlite.country (Sqlite.image_params pred);
                 Sqlite.prediction (Sqlite.image_params pred);
                 Sqlite.prediction_score (Sqlite.image_params pred);
                 Sqlite.prediction_source (Sqlite.image_params pred);
                 Sqlite.model_version (Sqlite.image_params pred)])
      as [Hok|Hov]; congruence.
  - intros [= <-]. split; [|done].
    unfold Sqlite.image_params in Hnull. simpl in Hnull.
    destruct (Json.filepath pred) as [[| | |[]|]|]; simpl in Hnull;
      try done; auto.
  - set (id := Sqlite.next_rowid db).
    set (body := Sqlite.classification_params _ _ _ _).
    pose proof (run_prefix_error body (λ e, e ≠ IntegrityError)
                  (seq 0 (length (classes_of pred) `max`
                          length (scores_of pred)))) as Hce.
    pose proof (run_prefix_error (detection_checked id)
                  (λ e, e ≠ IntegrityError) (detections_of pred)) as Hde.
    destruct (run_prefix body _) as [cs e1]. simpl in Hce.
    destruct (run_prefix (detection_checked id) _) as [ds e2]. simpl in Hde.
    destruct e1 as [e|].
    + intros [= -> _]. exfalso. apply (Hce IntegrityError); [|done|done].
      intros i e'. apply classification_params_error.
    + destruct e2 as [e|]; [|done].
      intros [= -> _]. exfalso. apply (Hde IntegrityError); [|done|done].
      intros d e' Hd. by rewrite (detection_checked_error _ _ _ Hd).
Qed.

(** A prediction without "filepath" against an empty database. *)
Lemma relational_integrity_error_is_null_filepath_witness :
  Sqlite.insert_image_and_relations no_float_of_str no_filepath empty_db
    = (Raise IntegrityError, empty_db) ∧
  Json.filepath no_filepath = None.
Proof.
  assert (Sqlite.insert_image_and_relations no_float_of_str no_filepath
            empty_db = (Raise IntegrityError, empty_db)) as Hrun
    by (vm_compute; reflexivity).
  split; [exact Hrun|].
  destruct (relational_integrity_error_is_null_filepath no_float_of_str
              no_filepath empty_db empty_db Hrun) as [_ _].
  reflexivity.
Defined.

(** One class with its score, stored with rank 0. *)
Lemma relational_ranks_witness :
  ∃ cs,
    Sqlite.classifications
      (Sqlite.insert_image_and_relations no_float_of_str one_class empty_db).2
      = Sqlite.classifications empty_db ++ cs ∧
    Sqlite.rank_integer <$> cs = seq 0 1.
Proof.
  apply (relational_ranks no_float_of_str one_class empty_db _ 1%Z).
  vm_compute. reflexivity.
Defined.
